(** * Lightning data modules of torch_geometric: a shallow embedding

    This development embeds [torch_geometric/data/lightning/datamodule.py]
    in Rocq and proves properties of the three data-module classes
    ([LightningDataset], [LightningNodeData], [LightningLinkData]), of their
    common base class [LightningDataModule] and of [infer_input_nodes].

    Python objects live in a heap of mutable objects addressed by location,
    so that aliasing ([self.kwargs] against [copy.copy(self.kwargs)]) and
    object identity (one loader per call) can be stated.  Methods are
    computations in a state-and-exception monad over that heap. *)

From stdpp Require Import gmap strings list fin_maps.
From Stdlib Require Import ZArith.

Set Warnings "-register-all".
Local Open Scope string_scope.

(** ** Values and heap objects *)

(** Python values.  [VObj] is an opaque collaborator object (a tensor, a
    dataset, a sampler, a strategy) known only by the names of the classes
    on its method-resolution order and by its identity; [VRef] points to a
    mutable object of the heap. *)
Inductive pyval :=
| VNone
| VBool (b : bool)
| VInt (z : Z)
| VStr (s : string)
| VTuple (vs : list pyval)
| VFun (name : string)
| VObj (mro : list string) (id : nat)
| VRef (l : nat).

(** Numbers are the integers and the booleans; floating-point values are
    outside the model. *)

(** The classes defined by the module. *)
Inductive module_class :=
| ClsLightningDataModule
| ClsLightningDataset
| ClsLightningNodeData
| ClsLightningLinkData.

Definition class_name (c : module_class) : string :=
  match c with
  | ClsLightningDataModule => "LightningDataModule"
  | ClsLightningDataset => "LightningDataset"
  | ClsLightningNodeData => "LightningNodeData"
  | ClsLightningLinkData => "LightningLinkData"
  end.

(** Modelled from the spec: the graph containers [Data] and [HeteroData]
    are excluded collaborators ("the underlying graph-data container's
    attribute storage") and their classes are not part of the source file.
    Only the three operations the module uses are modelled: membership
    ([key in data]), item access ([data[key]]) and [HeteroData.collect].
    A [Data] object has one attribute store.  A [HeteroData] object has a
    graph-level store plus one store per node type and per edge type;
    membership looks at every store, [collect] at the typed stores only. *)
Inductive hobj :=
| ODict (d : gmap string pyval)
| OData (store : gmap string pyval)
| OHeteroData (global_store : gmap string pyval)
    (node_stores : gmap string (gmap string pyval))
    (edge_stores : gmap (string * string * string) (gmap string pyval))
| OModule (cls : module_class) (attrs : gmap string pyval)
| OExternal (cls : string) (args : list pyval) (kwargs : gmap string pyval)
    (attrs : gmap string pyval).

(** [OModule] is an instance of one of the module's classes with its
    instance attributes.  [OExternal] is an object built by a collaborator's
    constructor (a loader, the neighbor sampler, the trainer): the class
    name, the positional and keyword arguments it was built from, and the
    attributes set on it afterwards. *)

Inductive exn :=
| ModuleNotFoundError
| ImportError
| NotImplementedError
| ValueError
| TypeError
| AttributeError
| KeyError
| AssertionError.

Global Instance exn_eq_dec : EqDecision exn.
Proof. solve_decision. Defined.

Global Instance module_class_eq_dec : EqDecision module_class.
Proof. solve_decision. Defined.

Inductive warning :=
| WarnShuffleIgnored (cls : module_class) (given : pyval)
| WarnResetBatchSize (cls : module_class) (got : pyval)
| WarnResetNumWorkers (cls : module_class) (got : pyval)
| WarnResetPinMemory (cls : module_class).

(** What the interpreter finds when the module is imported: whether
    [pytorch_lightning] is importable (the module-level flag
    [no_pytorch_lightning]), which of [pytorch_lightning.strategies] and
    [pytorch_lightning.plugins] export the strategy classes, and the
    constructor signature [inspect.signature] reports for a class, as the
    ordered list of parameter names with their defaults. *)
Record Env := {
  no_pytorch_lightning : bool;
  strategies_importable : bool;
  plugins_importable : bool;
  signature : string -> list (string * pyval);
}.

Record state := State {
  globals : Env;
  heap : gmap nat hobj;
  next_loc : nat;
  warnings : list warning;
  warning_filters : list string;
}.

(** ** The state-and-exception monad *)

Inductive outcome (A : Type) :=
| Ok (a : A)
| Raise (e : exn).
Arguments Ok {A} a.
Arguments Raise {A} e.

Definition M (A : Type) : Type := state -> outcome A * state.

Global Instance M_ret : MRet M := λ A a s, (Ok a, s).

Global Instance M_bind : MBind M := λ A B f m s,
  match m s with
  | (Ok a, s') => f a s'
  | (Raise e, s') => (Raise e, s')
  end.

Definition raise {A} (e : exn) : M A := λ s, (Raise e, s).

Definition lift {A} (o : outcome A) : M A := λ s, (o, s).

(** [try: m  except e: h] *)
Definition catch {A} (m : M A) (e : exn) (h : M A) : M A := λ s,
  match m s with
  | (Raise e', s') => if decide (e' = e) then h s' else (Raise e', s')
  | r => r
  end.

Definition ask : M Env := λ s, (Ok (globals s), s).

Definition alloc (o : hobj) : M nat := λ s,
  (Ok (next_loc s),
   State (globals s) (<[next_loc s := o]> (heap s)) (S (next_loc s))
         (warnings s) (warning_filters s)).

Definition store (l : nat) (o : hobj) : M unit := λ s,
  (Ok tt, State (globals s) (<[l := o]> (heap s)) (next_loc s)
                (warnings s) (warning_filters s)).

Definition warn (w : warning) : M unit := λ s,
  (Ok tt, State (globals s) (heap s) (next_loc s)
                (warnings s ++ [w]) (warning_filters s)).

Definition filterwarnings (pat : string) : M unit := λ s,
  (Ok tt, State (globals s) (heap s) (next_loc s)
                (warnings s) (pat :: warning_filters s)).

(** ** Python primitives *)

Definition is_none (v : pyval) : bool :=
  match v with VNone => true | _ => false end.

(** [v == z] for an integer literal [z]: [True == 1] and [False == 0]. *)
Definition eq_int (v : pyval) (z : Z) : bool :=
  match v with
  | VInt n => Z.eqb n z
  | VBool b => Z.eqb (Z.b2z b) z
  | _ => false
  end.

(** [v == s] for a string literal [s]. *)
Definition eq_str (v : pyval) (s : string) : bool :=
  match v with
  | VStr t => String.eqb t s
  | _ => false
  end.

(** [v > z] for an integer literal [z]; only numbers are ordered against
    an integer. *)
Definition py_gt (v : pyval) (z : Z) : outcome bool :=
  match v with
  | VInt n => Ok (Z.ltb z n)
  | VBool b => Ok (Z.ltb z (Z.b2z b))
  | _ => Raise TypeError
  end.

Definition as_int (v : pyval) : option Z :=
  match v with
  | VInt n => Some n
  | VBool b => Some (Z.b2z b)
  | _ => None
  end.

(** [max(a, b)]: the first of the two unless the second is greater. *)
Definition py_max (a b : pyval) : outcome pyval :=
  match as_int a, as_int b with
  | Some x, Some y => Ok (if Z.ltb x y then b else a)
  | _, _ => Raise TypeError
  end.

(** Truth value of [v] in a condition. *)
Definition truthy (h : gmap nat hobj) (v : pyval) : bool :=
  match v with
  | VNone => false
  | VBool b => b
  | VInt z => negb (Z.eqb z 0)
  | VStr s => negb (String.eqb s "")
  | VTuple vs => match vs with [] => false | _ => true end
  | VFun _ => true
  | VObj _ _ => true
  | VRef l =>
      match h !! l with
      | Some (ODict d) => negb (bool_decide (d = ∅))
      | _ => true
      end
  end.

(** [isinstance(v, classes)] *)
Definition isinstance (h : gmap nat hobj) (v : pyval) (classes : list string) : bool :=
  match v with
  | VObj mro _ => existsb (λ c, bool_decide (c ∈ mro)) classes
  | VRef l =>
      match h !! l with
      | Some (OExternal cls _ _ _) => bool_decide (cls ∈ classes)
      | Some (OModule cls _) => bool_decide (class_name cls ∈ classes)
      | _ => false
      end
  | _ => false
  end.

(** [isinstance] as a computation reading the heap. *)
Definition isinstance_ (v : pyval) (classes : list string) : M bool := λ s,
  (Ok (isinstance (heap s) v classes), s).

(** [truthy] as a computation reading the heap. *)
Definition truthy_ (v : pyval) : M bool := λ s, (Ok (truthy (heap s) v), s).

(** [v.name] *)
Definition getattr (v : pyval) (name : string) : M pyval := λ s,
  match v with
  | VRef l =>
      match heap s !! l with
      | Some (OModule _ attrs) | Some (OExternal _ _ _ attrs) =>
          match attrs !! name with
          | Some x => (Ok x, s)
          | None => (Raise AttributeError, s)
          end
      | _ => (Raise AttributeError, s)
      end
  | _ => (Raise AttributeError, s)
  end.

(** [v.name = x] *)
Definition setattr (v : pyval) (name : string) (x : pyval) : M unit := λ s,
  match v with
  | VRef l =>
      match heap s !! l with
      | Some (OModule c attrs) => store l (OModule c (<[name := x]> attrs)) s
      | Some (OExternal c a k attrs) =>
          store l (OExternal c a k (<[name := x]> attrs)) s
      | _ => (Raise AttributeError, s)
      end
  | _ => (Raise AttributeError, s)
  end.

(** The contents of the dictionary [v] refers to. *)
Definition read_dict (v : pyval) : M (gmap string pyval) := λ s,
  match v with
  | VRef l =>
      match heap s !! l with
      | Some (ODict d) => (Ok d, s)
      | _ => (Raise TypeError, s)
      end
  | _ => (Raise TypeError, s)
  end.

(** [v[k] = x] on a dictionary *)
Definition dict_set (v : pyval) (k : string) (x : pyval) : M unit :=
  d ← read_dict v;
  match v with
  | VRef l => store l (ODict (<[k := x]> d))
  | _ => raise TypeError
  end.

(** [v.pop(k, None)] on a dictionary *)
Definition dict_pop (v : pyval) (k : string) : M unit :=
  d ← read_dict v;
  match v with
  | VRef l => store l (ODict (delete k d))
  | _ => raise TypeError
  end.

(** [copy.copy(v)] of a dictionary: a new dictionary with the same items. *)
Definition copy_dict (v : pyval) : M pyval :=
  d ← read_dict v;
  l ← alloc (ODict d);
  mret (VRef l).

(** [self.__class__] of an instance of one of the module's classes. *)
Definition class_of (self : pyval) : M module_class := λ s,
  match self with
  | VRef l =>
      match heap s !! l with
      | Some (OModule c _) => (Ok c, s)
      | _ => (Raise AttributeError, s)
      end
  | _ => (Raise AttributeError, s)
  end.

(** [d.get(k, dflt)] *)
Definition dict_get (d : gmap string pyval) (k : string) (dflt : pyval) : pyval :=
  default dflt (d !! k).

(** Keyword arguments of a call that passes explicit keywords together
    with an unpacked dictionary [star]: a keyword given both explicitly and
    through [star], or one that names a parameter already bound
    positionally, is a [TypeError]. *)
Definition call_kwargs (positional : list string) (explicit : list (string * pyval))
    (star : gmap string pyval) : M (gmap string pyval) :=
  if existsb (λ k, bool_decide (is_Some (star !! k))) (positional ++ explicit.*1)
  then raise TypeError
  else mret (star ∪ list_to_map explicit).

(** A collaborator's constructor called with positional and keyword
    arguments: allocates the new object and records what it was built
    from. *)
Definition construct_external (cls : string) (args : list pyval)
    (kwargs : gmap string pyval) : M pyval :=
  l ← alloc (OExternal cls args kwargs ∅);
  mret (VRef l).

(** [for x in xs: body(x)] *)
Definition for_each {A} (xs : list A) (body : A -> M unit) : M unit :=
  foldr (λ x rest, body x ;; rest) (mret tt) xs.

(** [getattr(v, name, None)] *)
Definition getattr_or_none (v : pyval) (name : string) : M pyval :=
  catch (getattr v name) AttributeError (mret VNone).

(** [v.__class__.__name__] *)
Definition class_name_of (h : gmap nat hobj) (v : pyval) : string :=
  match v with
  | VNone => "NoneType"
  | VBool _ => "bool"
  | VInt _ => "int"
  | VStr _ => "str"
  | VTuple _ => "tuple"
  | VFun _ => "function"
  | VObj mro _ => match mro with c :: _ => c | [] => "object" end
  | VRef l =>
      match h !! l with
      | Some (ODict _) => "dict"
      | Some (OData _) => "Data"
      | Some (OHeteroData _ _ _) => "HeteroData"
      | Some (OModule c _) => class_name c
      | Some (OExternal c _ _ _) => c
      | None => "object"
      end
  end.

(** [inspect.signature(v.__class__).parameters] *)
Definition signature_of (v : pyval) : M (list (string * pyval)) := λ s,
  (Ok (signature (globals s) (class_name_of (heap s) v)), s).

(** ** Graph containers *)

(** The typed stores that hold attribute [key], with its value there. *)
Definition carriers {K} `{Countable K} (key : string)
    (stores : gmap K (gmap string pyval)) : gmap K pyval :=
  omap (λ st : gmap string pyval, st !! key) stores.

Definition node_type (t : string) : pyval := VStr t.

Definition edge_type (t : string * string * string) : pyval :=
  VTuple [VStr t.1.1; VStr t.1.2; VStr t.2].

(** [HeteroData.collect(key)]: the items of the resulting dictionary, node
    types first. *)
Definition collect (key : string)
    (node_stores : gmap string (gmap string pyval))
    (edge_stores : gmap (string * string * string) (gmap string pyval))
    : list (pyval * pyval) :=
  (prod_map node_type id <$> map_to_list (carriers key node_stores))
  ++ (prod_map edge_type id <$> map_to_list (carriers key edge_stores)).

Definition has_key (key : string) (st : gmap string pyval) : bool :=
  bool_decide (is_Some (st !! key)).

(** [key in data] *)
Definition py_contains (key : string) (data : pyval) : M bool := λ s,
  match data with
  | VRef l =>
      match heap s !! l with
      | Some (OData st) | Some (ODict st) => (Ok (has_key key st), s)
      | Some (OHeteroData g ns es) =>
          (Ok (has_key key g
               || negb (bool_decide (carriers key ns = ∅))
               || negb (bool_decide (carriers key es = ∅))), s)
      | _ => (Raise TypeError, s)
      end
  | VTuple vs => (Ok (existsb (λ v, eq_str v key) vs), s)
  | VStr t => (Ok (bool_decide (is_Some (String.index 0 key t))), s)
  | _ => (Raise TypeError, s)
  end.

(** The first lines of [infer_input_nodes]: the name of the attribute to
    read, by precedence, or [None]. *)
Definition infer_attr_name (data : pyval) (split : string) : M (option string) :=
  in_mask ← py_contains (split ++ "_mask") data;
  if in_mask : bool then mret (Some (split ++ "_mask")) else
  in_idx ← py_contains (split ++ "_idx") data;
  if in_idx : bool then mret (Some (split ++ "_idx")) else
  in_index ← py_contains (split ++ "_index") data;
  if in_index : bool then mret (Some (split ++ "_index")) else
  mret None.

(** The rest of [infer_input_nodes], once the attribute name is known. *)
Definition read_input_nodes (data : pyval) (attr : string) : M pyval := λ s,
  match data with
  | VRef l =>
      match heap s !! l with
      | Some (OData st) =>
          (* isinstance(data, Data): data[attr_name] *)
          match st !! attr with
          | Some v => (Ok v, s)
          | None => (Raise KeyError, s)
          end
      | Some (OHeteroData g ns es) =>
          (* isinstance(data, HeteroData) *)
          match collect attr ns es with
          | [(ty, v)] => (Ok (VTuple [ty; v]), s)
          | _ => (Raise ValueError, s)
          end
      | _ => (Ok VNone, s)
      end
  | _ => (Ok VNone, s)
  end.

Definition infer_input_nodes (data : pyval) (split : string) : M pyval :=
  attr_name ← infer_attr_name data split;
  match attr_name with
  | None => mret VNone
  | Some attr => read_input_nodes data attr
  end.

(** ** class LightningDataModule *)

Module LightningDataModule.

Definition __init__ (self : pyval) (has_val has_test : bool)
    (kwargs : gmap string pyval) : M unit :=
  (* super().__init__() is the host framework's (or object's) initialiser *)
  env ← ask;
  if no_pytorch_lightning env then raise ModuleNotFoundError else
  (if negb has_val then setattr self "val_dataloader" VNone else mret tt);;
  (if negb has_test then setattr self "test_dataloader" VNone else mret tt);;
  kwargs ←
    match kwargs !! "shuffle" with
    | Some given =>
        cls ← class_of self;
        warn (WarnShuffleIgnored cls given);;
        mret (delete "shuffle" kwargs)
    | None => mret kwargs
    end;
  let kwargs :=
    if has_key "pin_memory" kwargs then kwargs
    else <["pin_memory" := VBool true]> kwargs in
  kwargs ←
    (if has_key "persistent_workers" kwargs then mret kwargs else
     b ← lift (py_gt (dict_get kwargs "num_workers" (VInt 0)) 0);
     mret (<["persistent_workers" := VBool b]> kwargs));
  d ← alloc (ODict kwargs);
  setattr self "kwargs" (VRef d).

Definition prepare_data (self : pyval) : M pyval :=
  env ← ask;
  '(SingleDeviceStrategy, DDPSpawnStrategy, strategy) ←
    (if strategies_importable env then
       trainer ← getattr self "trainer";
       strategy ← getattr trainer "strategy";
       mret ("SingleDeviceStrategy", "DDPSpawnStrategy", strategy)
     else if plugins_importable env then
       (* PyTorch Lightning < 1.6 backward compatibility *)
       trainer ← getattr self "trainer";
       strategy ← getattr trainer "training_type_plugin";
       mret ("SingleDevicePlugin", "DDPSpawnPlugin", strategy)
     else raise ImportError);
  supported ← isinstance_ strategy [SingleDeviceStrategy; DDPSpawnStrategy];
  if supported : bool then mret VNone else raise NotImplementedError.

End LightningDataModule.

(** ** Code shared verbatim by the concrete classes *)

(** [self.kwargs.get(key, None)] *)
Definition kwargs_get (self : pyval) (key : string) : M pyval := λ s,
  match getattr self "kwargs" s with
  | (Ok (VRef l), s') =>
      match heap s' !! l with
      | Some (ODict d) => (Ok (dict_get d key VNone), s')
      | _ => (Raise AttributeError, s')
      end
  | (Ok _, s') => (Raise AttributeError, s')
  | (Raise e, s') => (Raise e, s')
  end.

(** [**self.kwargs] at a call site. *)
Definition unpack_kwargs (self : pyval) : M (gmap string pyval) :=
  kwargs ← getattr self "kwargs";
  read_dict kwargs.

(** The shuffle flag of [train_dataloader]:
    [self.kwargs.get('sampler', None) is None
     and self.kwargs.get('batch_sampler', None) is None]. *)
Definition no_custom_sampler (self : pyval) : M bool :=
  sampler ← kwargs_get self "sampler";
  if is_none sampler then
    batch_sampler ← kwargs_get self "batch_sampler";
    mret (is_none batch_sampler)
  else mret false.

(** The first three lines of the evaluation accessors:
    [kwargs = copy.copy(self.kwargs)], then
    [kwargs.pop('sampler', None)] and [kwargs.pop('batch_sampler', None)];
    the result is the contents of the copy. *)
Definition eval_kwargs (self : pyval) : M (gmap string pyval) :=
  self_kwargs ← getattr self "kwargs";
  kwargs ← copy_dict self_kwargs;
  dict_pop kwargs "sampler";;
  dict_pop kwargs "batch_sampler";;
  read_dict kwargs.

(** The body of [if self.loader == 'full':] in [prepare_data]. *)
Definition require_single_device (self : pyval) : M unit :=
  num_devices ←
    catch (trainer ← getattr self "trainer"; getattr trainer "num_devices")
      AttributeError
      (* PyTorch Lightning < 1.6 backward compatibility *)
      (trainer ← getattr self "trainer";
       num_processes ← getattr trainer "num_processes";
       trainer ← getattr self "trainer";
       num_gpus ← getattr trainer "num_gpus";
       lift (py_max num_processes num_gpus));
  many ← lift (py_gt num_devices 1);
  if many : bool then raise ValueError else mret tt.

(** The [loader == 'full'] branch of [dataloader]. *)
Definition full_dataloader (self : pyval) (kwargs : gmap string pyval) : M pyval :=
  filterwarnings ".*does not have many workers.*";;
  filterwarnings ".*data loading bottlenecks.*";;
  let kwargs := <["shuffle" := VBool true]> kwargs in
  let kwargs := delete "sampler" kwargs in
  let kwargs := delete "batch_sampler" kwargs in
  data ← getattr self "data";
  kw ← call_kwargs [] [("collate_fn", VFun "lambda xs: xs[0]")] kwargs;
  construct_external "torch.utils.data.DataLoader" [VTuple [data]] kw.

(** The re-setting of [batch_size] and [num_workers] for [loader='full']. *)
Definition reset_for_full (self loader : pyval) (given : pyval) (target : Z)
    (w : module_class -> pyval -> warning) : M pyval :=
  if eq_str loader "full" && negb (eq_int given target) then
    cls ← class_of self;
    warn (w cls given);;
    mret (VInt target)
  else mret given.

(** The re-setting of [pin_memory] after the base initialiser ran. *)
Definition reset_pin_memory (self loader : pyval) (kwargs : gmap string pyval) : M unit :=
  if eq_str loader "full" then
    given ← truthy_ (dict_get kwargs "pin_memory" (VBool false));
    (if given : bool then
       cls ← class_of self;
       warn (WarnResetPinMemory cls)
     else mret tt);;
    self_kwargs ← getattr self "kwargs";
    dict_set self_kwargs "pin_memory" (VBool false)
  else mret tt.

(** Building the [NeighborSampler] from the matching keyword arguments. *)
Definition build_neighbor_sampler (self data num_workers : pyval)
    (kwargs : gmap string pyval) : M unit :=
  env ← ask;
  let sampler_args : gmap string pyval := list_to_map (signature env "NeighborSampler") in
  if negb (has_key "data" sampler_args) then raise KeyError else
  let sampler_args := delete "data" sampler_args in
  if negb (has_key "share_memory" sampler_args) then raise KeyError else
  let sampler_args := delete "share_memory" sampler_args in
  let sampler_kwargs : gmap string pyval :=
    map_imap (λ key dflt, Some (dict_get kwargs key dflt)) sampler_args in
  share_memory ← lift (py_gt num_workers 0);
  kw ← call_kwargs [] [("data", data); ("share_memory", VBool share_memory)]
         sampler_kwargs;
  sampler ← construct_external "NeighborSampler" [] kw;
  setattr self "neighbor_sampler" sampler.

(** Removing from [self.kwargs] what the sampler's constructor takes. *)
Definition drop_sampler_kwargs (self : pyval) : M unit :=
  sampler ← getattr_or_none self "neighbor_sampler";
  if is_none sampler then mret tt else
  params ← signature_of sampler;
  for_each params.*1 (λ param,
    self_kwargs ← getattr self "kwargs";
    dict_pop self_kwargs param).

(** The keyword arguments the base initialiser receives from a subclass:
    [has_val] and [has_test] are bound to its parameters, the rest is its
    [kwargs]. *)
Definition base_init_kwargs (has_val has_test : bool) (batch_size num_workers : pyval)
    (kwargs : gmap string pyval) : M (gmap string pyval) :=
  kw ← call_kwargs ["self"]
         [("has_val", VBool has_val); ("has_test", VBool has_test);
          ("batch_size", batch_size); ("num_workers", num_workers)] kwargs;
  mret (delete "has_val" (delete "has_test" kw)).

(** ** class LightningDataset *)

Module LightningDataset.

Record args := {
  train_dataset : pyval;
  val_dataset : pyval;
  test_dataset : pyval;
  batch_size : pyval;
  num_workers : pyval;
  kwargs : gmap string pyval;
}.

Definition __init__ (self : pyval) (a : args) : M unit :=
  let has_val := negb (is_none (val_dataset a)) in
  let has_test := negb (is_none (test_dataset a)) in
  kw ← base_init_kwargs has_val has_test (batch_size a) (num_workers a) (kwargs a);
  LightningDataModule.__init__ self has_val has_test kw;;
  setattr self "train_dataset" (train_dataset a);;
  setattr self "val_dataset" (val_dataset a);;
  setattr self "test_dataset" (test_dataset a).

Definition dataloader (self dataset : pyval) (kwargs : gmap string pyval) : M pyval :=
  construct_external "DataLoader" [dataset] kwargs.

Definition train_dataloader (self : pyval) : M pyval :=
  train_dataset ← getattr self "train_dataset";
  iterable ← isinstance_ train_dataset ["IterableDataset"];
  shuffle ← (if iterable : bool then mret false else no_custom_sampler self);
  train_dataset ← getattr self "train_dataset";
  self_kwargs ← unpack_kwargs self;
  kw ← call_kwargs ["self"; "dataset"] [("shuffle", VBool shuffle)] self_kwargs;
  dataloader self train_dataset kw.

Definition val_dataloader (self : pyval) : M pyval :=
  kwargs ← eval_kwargs self;
  val_dataset ← getattr self "val_dataset";
  kw ← call_kwargs ["self"; "dataset"] [("shuffle", VBool false)] kwargs;
  dataloader self val_dataset kw.

Definition test_dataloader (self : pyval) : M pyval :=
  kwargs ← eval_kwargs self;
  test_dataset ← getattr self "test_dataset";
  kw ← call_kwargs ["self"; "dataset"] [("shuffle", VBool false)] kwargs;
  dataloader self test_dataset kw.

End LightningDataset.

(** ** class LightningNodeData *)

Module LightningNodeData.

Record args := {
  data : pyval;
  input_train_nodes : pyval;
  input_train_time : pyval;
  input_val_nodes : pyval;
  input_val_time : pyval;
  input_test_nodes : pyval;
  input_test_time : pyval;
  input_pred_nodes : pyval;
  input_pred_time : pyval;
  loader : pyval;
  node_sampler : pyval;
  batch_size : pyval;
  num_workers : pyval;
  kwargs : gmap string pyval;
}.

(** [loader] after [if node_sampler is not None: loader = 'custom']. *)
Definition effective_loader (a : args) : pyval :=
  if negb (is_none (node_sampler a)) then VStr "custom" else loader a.

(** [input_val_nodes] after the inference with its ['valid'] fallback. *)
Definition infer_val_nodes (a : args) : M pyval :=
  if is_none (input_val_nodes a) then
    input_val_nodes ← infer_input_nodes (data a) "val";
    if is_none input_val_nodes then infer_input_nodes (data a) "valid"
    else mret input_val_nodes
  else mret (input_val_nodes a).

(** [input_<split>_nodes] for the splits without fallback. *)
Definition infer_nodes (a : args) (given : pyval) (split : string) : M pyval :=
  if is_none given then infer_input_nodes (data a) split else mret given.

Definition __init__ (self : pyval) (a : args) : M unit :=
  let loader := effective_loader a in
  if negb (existsb (eq_str loader) ["full"; "neighbor"; "custom"])
  then raise AssertionError else
  input_train_nodes ← infer_nodes a (input_train_nodes a) "train";
  input_val_nodes ← infer_val_nodes a;
  input_test_nodes ← infer_nodes a (input_test_nodes a) "test";
  input_pred_nodes ← infer_nodes a (input_pred_nodes a) "pred";
  batch_size ← reset_for_full self loader (batch_size a) 1 WarnResetBatchSize;
  num_workers ← reset_for_full self loader (num_workers a) 0 WarnResetNumWorkers;
  let has_val := negb (is_none input_val_nodes) in
  let has_test := negb (is_none input_test_nodes) in
  kw ← base_init_kwargs has_val has_test batch_size num_workers (kwargs a);
  LightningDataModule.__init__ self has_val has_test kw;;
  reset_pin_memory self loader (kwargs a);;
  setattr self "data" (data a);;
  setattr self "loader" loader;;
  (if eq_str loader "neighbor" then
     build_neighbor_sampler self (data a) num_workers (kwargs a)
   else if negb (is_none (node_sampler a)) then
     setattr self "neighbor_sampler" (node_sampler a)
   else mret tt);;
  drop_sampler_kwargs self;;
  setattr self "input_train_nodes" input_train_nodes;;
  setattr self "input_train_time" (input_train_time a);;
  setattr self "input_val_nodes" input_val_nodes;;
  setattr self "input_val_time" (input_val_time a);;
  setattr self "input_test_nodes" input_test_nodes;;
  setattr self "input_test_time" (input_test_time a);;
  setattr self "input_pred_nodes" input_pred_nodes;;
  setattr self "input_pred_time" (input_pred_time a);;
  setattr self "input_train_id" VNone;;
  setattr self "input_val_id" VNone;;
  setattr self "input_test_id" VNone;;
  setattr self "input_pred_id" VNone.

Definition prepare_data (self : pyval) : M pyval :=
  loader ← getattr self "loader";
  (if eq_str loader "full" then require_single_device self else mret tt);;
  LightningDataModule.prepare_data self.

Definition dataloader (self input_nodes input_time input_id : pyval)
    (kwargs : gmap string pyval) : M pyval :=
  loader ← getattr self "loader";
  if eq_str loader "full" then full_dataloader self kwargs
  else
    data ← getattr self "data";
    neighbor_sampler ← getattr self "neighbor_sampler";
    kw ← call_kwargs []
           [("node_sampler", neighbor_sampler); ("input_nodes", input_nodes);
            ("input_time", input_time)] kwargs;
    loader ← construct_external "NodeLoader" [data] kw;
    (* loader.input_data.input_id = input_id *)
    setattr loader "input_data.input_id" input_id;;
    mret loader.

(** The call [self.dataloader(nodes, time, id, shuffle=..., **kwargs)] of
    the accessors, reading the three positional arguments from [self]. *)
Definition split_dataloader (self : pyval) (split : string) (shuffle : bool)
    (kwargs : M (gmap string pyval)) : M pyval :=
  input_nodes ← getattr self ("input_" ++ split ++ "_nodes");
  input_time ← getattr self ("input_" ++ split ++ "_time");
  input_id ← getattr self ("input_" ++ split ++ "_id");
  kwargs ← kwargs;
  kw ← call_kwargs ["self"; "input_nodes"; "input_time"; "input_id"]
         [("shuffle", VBool shuffle)] kwargs;
  dataloader self input_nodes input_time input_id kw.

Definition train_dataloader (self : pyval) : M pyval :=
  shuffle ← no_custom_sampler self;
  split_dataloader self "train" shuffle (unpack_kwargs self).

Definition val_dataloader (self : pyval) : M pyval :=
  kwargs ← eval_kwargs self;
  split_dataloader self "val" false (mret kwargs).

Definition test_dataloader (self : pyval) : M pyval :=
  kwargs ← eval_kwargs self;
  split_dataloader self "test" false (mret kwargs).

Definition predict_dataloader (self : pyval) : M pyval :=
  kwargs ← eval_kwargs self;
  split_dataloader self "pred" false (mret kwargs).

End LightningNodeData.

(** ** class LightningLinkData *)

Module LightningLinkData.

Record args := {
  data : pyval;
  input_train_edges : pyval;
  input_train_labels : pyval;
  input_train_time : pyval;
  input_val_edges : pyval;
  input_val_labels : pyval;
  input_val_time : pyval;
  input_test_edges : pyval;
  input_test_labels : pyval;
  input_test_time : pyval;
  loader : pyval;
  link_sampler : pyval;
  batch_size : pyval;
  num_workers : pyval;
  kwargs : gmap string pyval;
}.

(** [loader] after [if link_sampler is not None: loader = 'custom']. *)
Definition effective_loader (a : args) : pyval :=
  if negb (is_none (link_sampler a)) then VStr "custom" else loader a.

Definition __init__ (self : pyval) (a : args) : M unit :=
  let loader := effective_loader a in
  if negb (existsb (eq_str loader) ["full"; "neighbor"; "link_neighbor"; "custom"])
  then raise AssertionError else
  if is_none (input_train_edges a) then raise NotImplementedError else
  batch_size ← reset_for_full self loader (batch_size a) 1 WarnResetBatchSize;
  num_workers ← reset_for_full self loader (num_workers a) 0 WarnResetNumWorkers;
  let has_val := negb (is_none (input_val_edges a)) in
  let has_test := negb (is_none (input_test_edges a)) in
  kw ← base_init_kwargs has_val has_test batch_size num_workers (kwargs a);
  LightningDataModule.__init__ self has_val has_test kw;;
  reset_pin_memory self loader (kwargs a);;
  setattr self "data" (data a);;
  setattr self "loader" loader;;
  (if existsb (eq_str loader) ["neighbor"; "link_neighbor"] then
     build_neighbor_sampler self (data a) num_workers (kwargs a)
   else if negb (is_none (link_sampler a)) then
     setattr self "neighbor_sampler" (link_sampler a)
   else mret tt);;
  drop_sampler_kwargs self;;
  setattr self "input_train_edges" (input_train_edges a);;
  setattr self "input_train_labels" (input_train_labels a);;
  setattr self "input_train_time" (input_train_time a);;
  setattr self "input_val_edges" (input_val_edges a);;
  setattr self "input_val_labels" (input_val_labels a);;
  setattr self "input_val_time" (input_val_time a);;
  setattr self "input_test_edges" (input_test_edges a);;
  setattr self "input_test_labels" (input_test_labels a);;
  setattr self "input_test_time" (input_test_time a);;
  setattr self "input_train_id" VNone;;
  setattr self "input_val_id" VNone;;
  setattr self "input_test_id" VNone.

Definition prepare_data (self : pyval) : M pyval :=
  loader ← getattr self "loader";
  (if eq_str loader "full" then require_single_device self else mret tt);;
  LightningDataModule.prepare_data self.

Definition dataloader (self input_edges input_labels input_time input_id : pyval)
    (kwargs : gmap string pyval) : M pyval :=
  loader ← getattr self "loader";
  if eq_str loader "full" then full_dataloader self kwargs
  else
    data ← getattr self "data";
    neighbor_sampler ← getattr self "neighbor_sampler";
    kw ← call_kwargs []
           [("link_sampler", neighbor_sampler); ("edge_label_index", input_edges);
            ("edge_label", input_labels); ("edge_label_time", input_time)] kwargs;
    loader ← construct_external "LinkLoader" [data] kw;
    (* loader.input_data.input_id = input_id *)
    setattr loader "input_data.input_id" input_id;;
    mret loader.

(** The call [self.dataloader(edges, labels, time, id, shuffle=..., **kwargs)]
    of the accessors, reading the four positional arguments from [self]. *)
Definition split_dataloader (self : pyval) (split : string) (shuffle : bool)
    (kwargs : M (gmap string pyval)) : M pyval :=
  input_edges ← getattr self ("input_" ++ split ++ "_edges");
  input_labels ← getattr self ("input_" ++ split ++ "_labels");
  input_time ← getattr self ("input_" ++ split ++ "_time");
  input_id ← getattr self ("input_" ++ split ++ "_id");
  kwargs ← kwargs;
  kw ← call_kwargs
         ["self"; "input_edges"; "input_labels"; "input_time"; "input_id"]
         [("shuffle", VBool shuffle)] kwargs;
  dataloader self input_edges input_labels input_time input_id kw.

Definition train_dataloader (self : pyval) : M pyval :=
  shuffle ← no_custom_sampler self;
  split_dataloader self "train" shuffle (unpack_kwargs self).

Definition val_dataloader (self : pyval) : M pyval :=
  kwargs ← eval_kwargs self;
  split_dataloader self "val" false (mret kwargs).

Definition test_dataloader (self : pyval) : M pyval :=
  kwargs ← eval_kwargs self;
  split_dataloader self "test" false (mret kwargs).

End LightningLinkData.

(** ** Instantiation and attribute lookup *)

(** [cls.__new__]: a new instance without attributes. *)
Definition new (cls : module_class) : M pyval :=
  l ← alloc (OModule cls ∅);
  mret (VRef l).



Definition construct_node (a : LightningNodeData.args) : M pyval :=
  self ← new ClsLightningNodeData;
  LightningNodeData.__init__ self a;;
  mret self.

Definition construct_link (a : LightningLinkData.args) : M pyval :=
  self ← new ClsLightningLinkData;
  LightningLinkData.__init__ self a;;
  mret self.

Inductive accessor :=
| TrainDataloader
| ValDataloader
| TestDataloader
| PredictDataloader.


(** The accessors each class body defines. *)
Definition own_method (c : module_class) (a : accessor) : option (pyval -> M pyval) :=
  match c, a with
  | ClsLightningDataset, TrainDataloader => Some LightningDataset.train_dataloader
  | ClsLightningDataset, ValDataloader => Some LightningDataset.val_dataloader
  | ClsLightningDataset, TestDataloader => Some LightningDataset.test_dataloader
  | ClsLightningNodeData, TrainDataloader => Some LightningNodeData.train_dataloader
  | ClsLightningNodeData, ValDataloader => Some LightningNodeData.val_dataloader
  | ClsLightningNodeData, TestDataloader => Some LightningNodeData.test_dataloader
  | ClsLightningNodeData, PredictDataloader => Some LightningNodeData.predict_dataloader
  | ClsLightningLinkData, TrainDataloader => Some LightningLinkData.train_dataloader
  | ClsLightningLinkData, ValDataloader => Some LightningLinkData.val_dataloader
  | ClsLightningLinkData, TestDataloader => Some LightningLinkData.test_dataloader
  | _, _ => None
  end.



(** [self.prepare_data()], by the class of [self]. *)
Definition prepare_data (self : pyval) : M pyval :=
  cls ← class_of self;
  match cls with
  | ClsLightningDataModule | ClsLightningDataset =>
      LightningDataModule.prepare_data self
  | ClsLightningNodeData => LightningNodeData.prepare_data self
  | ClsLightningLinkData => LightningLinkData.prepare_data self
  end.

(** ** Concrete objects used in the examples *)

Definition signature0 (cls : string) : list (string * pyval) :=
  if String.eqb cls "NeighborSampler" then
    [("data", VObj ["_empty"] 0); ("num_neighbors", VObj ["_empty"] 0);
     ("replace", VBool false); ("directed", VBool true);
     ("input_type", VNone); ("time_attr", VNone);
     ("is_sorted", VBool false); ("share_memory", VBool false)]
  else [].

(** An interpreter with a recent [pytorch_lightning]. *)
Definition env0 : Env :=
  {| no_pytorch_lightning := false;
     strategies_importable := true;
     plugins_importable := true;
     signature := signature0 |}.


Definition init_state (env : Env) (h : gmap nat hobj) (n : nat) : state :=
  State env h n [] [].

Definition tensor (id : nat) : pyval := VObj ["Tensor"] id.
Definition dataset (id : nat) : pyval := VObj ["Dataset"] id.

(** ** Notions used in the statements *)

(** The exception an outcome carries, if any. *)
Definition raised {A} (o : outcome A) : option exn :=
  match o with
  | Ok _ => None
  | Raise e => Some e
  end.

(** A computation that never raises [e]. *)
Definition no_raise (e : exn) {A} (m : M A) : Prop :=
  ∀ s, raised (m s).1 ≠ Some e.

(** Attributes, as the statements read them. *)
Definition attrs_of (h : gmap nat hobj) (v : pyval) : option (gmap string pyval) :=
  match v with
  | VRef l =>
      match h !! l with
      | Some (OModule _ a) | Some (OExternal _ _ _ a) => Some a
      | _ => None
      end
  | _ => None
  end.

Definition attr (h : gmap nat hobj) (v : pyval) (name : string) : option pyval :=
  a ← attrs_of h v; a !! name.




Definition reported_devices (s : state) (self : pyval) : option Z :=
  trainer ← attr (heap s) self "trainer";
  match attr (heap s) trainer "num_devices" with
  | Some v => as_int v
  | None =>
      p ← attr (heap s) trainer "num_processes" ≫= as_int;
      g ← attr (heap s) trainer "num_gpus" ≫= as_int;
      Some (Z.max p g)
  end.


(** The classes whose body defines [prepare_data] on top of the base
    class's. *)
Definition overrides_prepare_data (c : module_class) : bool :=
  match c with
  | ClsLightningNodeData | ClsLightningLinkData => true
  | _ => false
  end.

(** ** Concrete objects used in the examples, continued *)

Definition ddp_spawn : pyval :=
  VObj ["DDPSpawnStrategy"; "ParallelStrategy"; "Strategy"] 10.
Definition single_device : pyval :=
  VObj ["SingleDeviceStrategy"; "Strategy"] 12.

(** A trainer running [strategy] on [num_devices] devices. *)
Definition trainer_obj (strategy : pyval) (num_devices : Z) : hobj :=
  OExternal "Trainer" [] ∅
    (<["strategy" := strategy]> {["num_devices" := VInt num_devices]}).

(** A homogeneous graph with a training mask and validation indices. *)
Definition graph0 : hobj :=
  OData (<["train_mask" := tensor 1]> {["valid_idx" := tensor 2]}).

(** The interpreter's state with [graph0] at location 0. *)
Definition state0 : state := init_state env0 {[ 0%nat := graph0 ]} 1.

Definition node_args (loader batch_size num_workers : pyval)
    (kwargs : gmap string pyval) : LightningNodeData.args :=
  {| LightningNodeData.data := VRef 0;
     LightningNodeData.input_train_nodes := VNone;
     LightningNodeData.input_train_time := VNone;
     LightningNodeData.input_val_nodes := VNone;
     LightningNodeData.input_val_time := VNone;
     LightningNodeData.input_test_nodes := VNone;
     LightningNodeData.input_test_time := VNone;
     LightningNodeData.input_pred_nodes := VNone;
     LightningNodeData.input_pred_time := VNone;
     LightningNodeData.loader := loader;
     LightningNodeData.node_sampler := VNone;
     LightningNodeData.batch_size := batch_size;
     LightningNodeData.num_workers := num_workers;
     LightningNodeData.kwargs := kwargs |}.

Definition link_args (loader batch_size num_workers : pyval)
    (kwargs : gmap string pyval) : LightningLinkData.args :=
  {| LightningLinkData.data := VRef 0;
     LightningLinkData.input_train_edges := tensor 3;
     LightningLinkData.input_train_labels := VNone;
     LightningLinkData.input_train_time := VNone;
     LightningLinkData.input_val_edges := VNone;
     LightningLinkData.input_val_labels := VNone;
     LightningLinkData.input_val_time := VNone;
     LightningLinkData.input_test_edges := VNone;
     LightningLinkData.input_test_labels := VNone;
     LightningLinkData.input_test_time := VNone;
     LightningLinkData.loader := loader;
     LightningLinkData.link_sampler := VNone;
     LightningLinkData.batch_size := batch_size;
     LightningLinkData.num_workers := num_workers;
     LightningLinkData.kwargs := kwargs |}.


(** Builds a module with [build], then lets the framework attach a trainer
    to it; the result is the module. *)
Definition with_trainer (build : M pyval) (trainer : hobj) : M pyval :=
  self ← build;
  t ← alloc trainer;
  setattr self "trainer" (VRef t);;
  mret self.

(** [LightningNodeData(data, loader='full')] under a trainer that runs
    [DDPSpawnStrategy] on two devices. *)
Definition full_node_two_devices : outcome pyval * state :=
  with_trainer (construct_node (node_args (VStr "full") (VInt 1) (VInt 0) ∅))
    (trainer_obj ddp_spawn 2) state0.

(** [LightningNodeData(data, loader='full')] on one device. *)
Definition full_node_one_device : outcome pyval * state :=
  with_trainer (construct_node (node_args (VStr "full") (VInt 1) (VInt 0) ∅))
    (trainer_obj single_device 1) state0.


(** ** The base initialiser, as a function of its arguments *)

(** The instance attributes after the two [if not has_...] statements. *)
Definition split_flags (has_val has_test : bool) (attrs : gmap string pyval)
    : gmap string pyval :=
  let attrs := if has_val then attrs else <["val_dataloader" := VNone]> attrs in
  if has_test then attrs else <["test_dataloader" := VNone]> attrs.

(** The dictionary the base initialiser stores, if the comparison of
    [num_workers] with zero is defined. *)
Definition final_kwargs (kwargs : gmap string pyval) : option (gmap string pyval) :=
  let k := delete "shuffle" kwargs in
  let k := if has_key "pin_memory" k then k else <["pin_memory" := VBool true]> k in
  if has_key "persistent_workers" k then Some k
  else match py_gt (dict_get k "num_workers" (VInt 0)) 0 with
       | Ok b => Some (<["persistent_workers" := VBool b]> k)
       | Raise _ => None
       end.

Definition shuffle_warning (c : module_class) (kwargs : gmap string pyval)
    : list warning :=
  match kwargs !! "shuffle" with
  | Some given => [WarnShuffleIgnored c given]
  | None => []
  end.

(** [num_workers > 0] as the statement reads it: on the number given, zero by
    default. *)
Definition workers_positive (kwargs : gmap string pyval) : option bool :=
  Z.ltb 0 <$> as_int (dict_get kwargs "num_workers" (VInt 0)).

(** [shuffle=True, num_workers=4] *)
Definition shuffle_kwargs : gmap string pyval :=
  <["shuffle" := VBool true]> {["num_workers" := VInt 4]}.

(** The state once [LightningDataModule.__new__] has run in [state0]. *)
Definition fresh_base : state := (new ClsLightningDataModule state0).2.

(** ** Frames *)

(** A computation that leaves the state as it found it. *)
Definition reader {A} (m : M A) : Prop := ∀ s, (m s).2 = s.

(** A computation whose final state is always [R]-related to its initial
    state. *)
Definition respects (R : relation state) {A} (m : M A) : Prop :=
  ∀ s, R s (m s).2.

(** A computation that, started in a state satisfying [P], always ends in
    an exception, in a state [R]-related to the initial one. *)
Definition stops (P : state -> Prop) (R : relation state) {A} (m : M A) : Prop :=
  ∀ s, P s -> raised (m s).1 ≠ None ∧ R s (m s).2.

(** The interpreter's environment is never modified. *)
Definition keeps_globals (s s' : state) : Prop := globals s' = globals s.


(** Nothing is stored: the heap and the allocation pointer are the same
    (warnings may have been emitted). *)
Definition same_heap (s s' : state) : Prop :=
  heap s' = heap s ∧ next_loc s' = next_loc s ∧ globals s' = globals s.

(** Every object that existed is as it was; new objects may have been
    allocated and warning filters installed. *)
Definition extends (s s' : state) : Prop :=
  globals s' = globals s
  ∧ (next_loc s ≤ next_loc s')%nat
  ∧ (∀ l, (l < next_loc s)%nat -> heap s' !! l = heap s !! l)
  ∧ warnings s' = warnings s.


(** The names a subclass passes by keyword to the base initialiser. *)
Definition base_init_names : list string :=
  ["self"; "has_val"; "has_test"; "batch_size"; "num_workers"].



(** ** Input-node inference, as the statements read it *)

(** [key in data] for a graph container. *)
Definition present (o : hobj) (key : string) : bool :=
  match o with
  | OData st => has_key key st
  | OHeteroData g ns es =>
      has_key key g
      || negb (bool_decide (carriers key ns = ∅))
      || negb (bool_decide (carriers key es = ∅))
  | _ => false
  end.

(** The attribute chosen for [split], by precedence. *)
Definition chosen_attr (o : hobj) (split : string) : option string :=
  if present o (split ++ "_mask") then Some (split ++ "_mask")
  else if present o (split ++ "_idx") then Some (split ++ "_idx")
  else if present o (split ++ "_index") then Some (split ++ "_index")
  else None.

(** The number of node and edge types whose store holds [key]. *)
Definition carrier_count (key : string)
    (ns : gmap string (gmap string pyval))
    (es : gmap (string * string * string) (gmap string pyval)) : nat :=
  size (carriers key ns) + size (carriers key es).

(** The type [ty] holds [key] with value [v]. *)
Definition carries (key : string)
    (ns : gmap string (gmap string pyval))
    (es : gmap (string * string * string) (gmap string pyval))
    (ty v : pyval) : Prop :=
  (∃ t st, ty = node_type t ∧ ns !! t = Some st ∧ st !! key = Some v)
  ∨ (∃ t st, ty = edge_type t ∧ es !! t = Some st ∧ st !! key = Some v).

(** A heterogeneous graph whose only ['train_mask'] is a graph-level
    attribute: no node or edge type holds one. *)
Definition hetero_global_mask : hobj :=
  OHeteroData {["train_mask" := tensor 1]}
    {["paper" := {["x" := tensor 2]}]} ∅.

(** A heterogeneous graph with a ['train_mask'] on papers only. *)
Definition hetero_paper_mask : hobj :=
  OHeteroData ∅
    (<["paper" := {["train_mask" := tensor 1]}]> {["author" := {["x" := tensor 2]}]})
    ∅.

Definition state_hetero (o : hobj) : state := init_state env0 {[ 0%nat := o ]} 1.

(** [v] is the given input nodes or, when none are given, what
    [infer_input_nodes] returns for [split]. *)
Definition given_or_inferred (s : state) (data given : pyval) (split : string)
    (v : pyval) : Prop :=
  if is_none given then infer_input_nodes data split s = (Ok v, s)
  else v = given.

(** Same for the validation split, which tries ['val'] and then
    ['valid']. *)
Definition given_or_inferred_val (s : state) (data given : pyval) (v : pyval) : Prop :=
  if is_none given then
    ∃ v0, infer_input_nodes data "val" s = (Ok v0, s)
          ∧ if is_none v0 then infer_input_nodes data "valid" s = (Ok v, s)
            else v = v0
  else v = given.

(** The state once [LightningNodeData.__new__] has run in [state0]. *)
Definition fresh_node : state := (new ClsLightningNodeData state0).2.

(** [LightningNodeData(data, loader='neighbor', num_neighbors=7)] *)
Definition neighbor_args : LightningNodeData.args :=
  node_args (VStr "neighbor") (VInt 1) (VInt 0) {["num_neighbors" := VInt 7]}.

(** The state once [LightningNodeData(data, loader='neighbor',
    num_neighbors=7)] has been built in [state0]; the module is at
    location 1. *)
Definition built_node : state := (construct_node neighbor_args state0).2.

(** ** Loaders *)

(** The classes of the loader objects the accessors build. *)
Definition loader_classes : list string :=
  ["DataLoader"; "torch.utils.data.DataLoader"; "NodeLoader"; "LinkLoader"].

Definition is_loader (o : hobj) : bool :=
  match o with
  | OExternal c _ _ _ => bool_decide (c ∈ loader_classes)
  | _ => false
  end.


(** Every loader of [s'] was a loader of [s] already. *)
Definition no_new_loader (s s' : state) : Prop :=
  ∀ l o, heap s' !! l = Some o -> is_loader o = true ->
         ∃ o', heap s !! l = Some o' ∧ is_loader o' = true.


(** The warnings construction emits for [loader='full']: one per value
    that is re-set, and the base initialiser's about ['shuffle']. *)
Definition full_warnings (c : module_class) (batch_size num_workers : pyval)
    (kwargs : gmap string pyval) (pin : bool) : list warning :=
  ((if eq_int batch_size 1 then [] else [WarnResetBatchSize c batch_size])
   ++ (if eq_int num_workers 0 then [] else [WarnResetNumWorkers c num_workers])
   ++ shuffle_warning c kwargs
   ++ (if pin then [WarnResetPinMemory c] else []))%list.

(** What construction with [loader='full'] leaves in [self.kwargs], given
    the arguments it was called with. *)
Definition full_loader_coerced (c : module_class) (batch_size num_workers : pyval)
    (kwargs : gmap string pyval) (s : state) (self : pyval) (s' : state) : Prop :=
  ∃ k d pin,
    attr (heap s') self "kwargs" = Some (VRef k)
    ∧ heap s' !! k = Some (ODict d)
    ∧ (∃ b, d !! "batch_size" = Some b ∧ eq_int b 1 = true)
    ∧ (∃ n, d !! "num_workers" = Some n ∧ eq_int n 0 = true)
    ∧ d !! "pin_memory" = Some (VBool false)
    ∧ warnings s' = (warnings s ++ full_warnings c batch_size num_workers kwargs pin)%list
    ∧ (∀ h, (∀ x, dict_get kwargs "pin_memory" (VBool false) ≠ VRef x) ->
            pin = truthy h (dict_get kwargs "pin_memory" (VBool false))).

(** [LightningNodeData(data, loader='full', batch_size=32, num_workers=4,
    pin_memory=True)] *)
Definition full_args : LightningNodeData.args :=
  node_args (VStr "full") (VInt 32) (VInt 4) {["pin_memory" := VBool true]}.

(** ** Accessor resolution after construction *)

(** The class of the module instance at [l], if there is one. *)
Definition class_at (h : gmap nat hobj) (l : nat) : option module_class :=
  match h !! l with
  | Some (OModule c _) => Some c
  | _ => None
  end.

(** The object at [l], once allocated, keeps its class and its attribute
    [n]. *)
Definition keeps_attr (l : nat) (n : string) (s s' : state) : Prop :=
  (l < next_loc s)%nat ->
  (l < next_loc s')%nat
  ∧ attr (heap s') (VRef l) n = attr (heap s) (VRef l) n
  ∧ class_at (heap s') l = class_at (heap s) l.






(** [LightningLinkData(data, input_train_edges, loader='full',
    batch_size=8)] *)
Definition full_link_args : LightningLinkData.args :=
  link_args (VStr "full") (VInt 8) (VInt 0) ∅.
(** ** Reasoning about computations *)

Lemma run_bind {A B} (m : M A) (f : A -> M B) s :
  (m ≫= f) s =
  match m s with
  | (Ok a, s') => f a s'
  | (Raise e, s') => (Raise e, s')
  end.
Proof. reflexivity. Qed.

Lemma bind_ok_inv {A B} (m : M A) (f : A -> M B) s b s' :
  (m ≫= f) s = (Ok b, s') ->
  ∃ a s1, m s = (Ok a, s1) ∧ f a s1 = (Ok b, s').
Proof.
  rewrite run_bind. destruct (m s) as [[a|e] s1]; [eauto | discriminate].
Qed.

Lemma no_raise_bind e {A B} (m : M A) (f : A -> M B) :
  no_raise e m -> (∀ a, no_raise e (f a)) -> no_raise e (m ≫= f).
Proof.
  intros Hm Hf s. rewrite run_bind. specialize (Hm s).
  destruct (m s) as [[a|e'] s1]; [apply Hf | exact Hm].
Qed.

Lemma no_raise_ret e {A} (a : A) : no_raise e (mret a).
Proof. intros s. discriminate. Qed.

Lemma no_raise_raise e e' {A} : e' ≠ e -> no_raise e (raise e' : M A).
Proof. intros H s. cbn. congruence. Qed.

Lemma no_raise_lift e {A} (o : outcome A) : raised o ≠ Some e -> no_raise e (lift o).
Proof. intros H s. exact H. Qed.

Lemma no_raise_catch e e' {A} (m h : M A) :
  (e' = e ∨ no_raise e m) -> no_raise e h -> no_raise e (catch m e' h).
Proof.
  intros Hm Hh s. unfold catch.
  destruct (m s) as [[a|e1] s1] eqn:E; [discriminate|].
  destruct (decide (e1 = e')) as [->|Hne]; [apply Hh|].
  destruct Hm as [->|Hm]; [cbn; congruence|].
  specialize (Hm s). rewrite E in Hm. exact Hm.
Qed.

Ltac prim_no_raise :=
  let s := fresh "s" in
  intros s; cbv beta delta [getattr setattr read_dict class_of store alloc warn
    filterwarnings ask isinstance_ truthy_ signature_of py_contains read_input_nodes
    kwargs_get raise lift py_gt py_max call_kwargs mret M_ret];
  repeat case_match; cbn; congruence.

Lemma no_raise_getattr e v n : e ≠ AttributeError -> no_raise e (getattr v n).
Proof. intros H. prim_no_raise. Qed.
Lemma no_raise_setattr e v n x : e ≠ AttributeError -> no_raise e (setattr v n x).
Proof. intros H. prim_no_raise. Qed.
Lemma no_raise_class_of e v : e ≠ AttributeError -> no_raise e (class_of v).
Proof. intros H. prim_no_raise. Qed.
Lemma no_raise_read_dict e v : e ≠ TypeError -> no_raise e (read_dict v).
Proof. intros H. prim_no_raise. Qed.
Lemma no_raise_kwargs_get e v k : e ≠ AttributeError -> no_raise e (kwargs_get v k).
Proof. intros H s. unfold kwargs_get, getattr. repeat case_match; simplify_eq; cbn; congruence. Qed.
Lemma no_raise_store e l o : no_raise e (store l o).
Proof. prim_no_raise. Qed.
Lemma no_raise_alloc e o : no_raise e (alloc o).
Proof. prim_no_raise. Qed.
Lemma no_raise_warn e w : no_raise e (warn w).
Proof. prim_no_raise. Qed.
Lemma no_raise_filterwarnings e p : no_raise e (filterwarnings p).
Proof. prim_no_raise. Qed.
Lemma no_raise_ask e : no_raise e ask.
Proof. prim_no_raise. Qed.
Lemma no_raise_isinstance_ e v c : no_raise e (isinstance_ v c).
Proof. prim_no_raise. Qed.
Lemma no_raise_truthy_ e v : no_raise e (truthy_ v).
Proof. prim_no_raise. Qed.
Lemma no_raise_signature_of e v : no_raise e (signature_of v).
Proof. prim_no_raise. Qed.
Lemma no_raise_py_contains e k v : e ≠ TypeError -> no_raise e (py_contains k v).
Proof. intros H. prim_no_raise. Qed.
Lemma no_raise_read_input_nodes e v k :
  e ≠ KeyError -> e ≠ ValueError -> no_raise e (read_input_nodes v k).
Proof. intros H1 H2. prim_no_raise. Qed.
Lemma no_raise_py_gt e v z : e ≠ TypeError -> no_raise e (lift (py_gt v z)).
Proof. intros H. prim_no_raise. Qed.
Lemma no_raise_py_max e a b : e ≠ TypeError -> no_raise e (lift (py_max a b)).
Proof. intros H. prim_no_raise. Qed.
Lemma no_raise_call_kwargs e p x k : e ≠ TypeError -> no_raise e (call_kwargs p x k).
Proof. intros H. prim_no_raise. Qed.

Create HintDb no_raise.
#[export] Hint Resolve no_raise_ret no_raise_getattr no_raise_setattr no_raise_class_of
  no_raise_read_dict no_raise_kwargs_get no_raise_alloc no_raise_store no_raise_warn
  no_raise_filterwarnings no_raise_ask no_raise_isinstance_ no_raise_truthy_
  no_raise_signature_of no_raise_py_contains no_raise_read_input_nodes
  no_raise_py_gt no_raise_py_max no_raise_call_kwargs : no_raise.

(** Decomposes a [no_raise] goal along the structure of the computation. *)
Ltac no_raise_step :=
  match goal with
  | |- no_raise _ (_ ≫= _) => apply no_raise_bind; [|intros ?]
  | |- no_raise _ (catch _ _ _) => apply no_raise_catch; [right|]
  | |- no_raise _ (raise _) => apply no_raise_raise; congruence
  | |- no_raise _ (if ?c then _ else _) => destruct c
  | |- no_raise _ (match ?c with _ => _ end) => destruct c
  | |- no_raise _ (let '(_, _) := ?c in _) => destruct c
  | |- no_raise _ _ => solve [auto with no_raise]
  | |- _ ≠ _ => discriminate
  end.
Ltac no_raise_auto := repeat no_raise_step.

Lemma no_raise_for_each e {A} (xs : list A) (body : A -> M unit) :
  (∀ x, no_raise e (body x)) -> no_raise e (for_each xs body).
Proof.
  intros H. induction xs as [|x xs IH]; cbn.
  - apply no_raise_ret.
  - apply no_raise_bind; [apply H | intros _; exact IH].
Qed.

Lemma no_raise_base_prepare e self :
  e ≠ AttributeError -> e ≠ ImportError -> e ≠ NotImplementedError ->
  no_raise e (LightningDataModule.prepare_data self).
Proof.
  intros H1 H2 H3. unfold LightningDataModule.prepare_data.
  no_raise_auto.
Qed.

Lemma no_raise_infer_input_nodes e data split :
  e ≠ TypeError -> e ≠ KeyError -> e ≠ ValueError ->
  no_raise e (infer_input_nodes data split).
Proof.
  intros H1 H2 H3. unfold infer_input_nodes, infer_attr_name. no_raise_auto.
Qed.

Lemma no_raise_base_init e self hv ht kw :
  e ≠ AttributeError -> e ≠ ModuleNotFoundError -> e ≠ TypeError ->
  no_raise e (LightningDataModule.__init__ self hv ht kw).
Proof.
  intros H1 H2 H3. unfold LightningDataModule.__init__.
  no_raise_auto.
Qed.

Hint Extern 1 (_ ≠ _) => discriminate : no_raise.

Lemma no_raise_reset_for_full e self loader given target w :
  e ≠ AttributeError -> no_raise e (reset_for_full self loader given target w).
Proof. intros H. unfold reset_for_full. no_raise_auto. Qed.

Lemma no_raise_base_init_kwargs e hv ht bs nw kw :
  e ≠ TypeError -> no_raise e (base_init_kwargs hv ht bs nw kw).
Proof. intros H. unfold base_init_kwargs. no_raise_auto. Qed.

Lemma no_raise_reset_pin_memory e self loader kw :
  e ≠ AttributeError -> e ≠ TypeError -> no_raise e (reset_pin_memory self loader kw).
Proof. intros H1 H2. unfold reset_pin_memory, dict_set. no_raise_auto. Qed.

Lemma no_raise_build_neighbor_sampler e self data nw kw :
  e ≠ AttributeError -> e ≠ TypeError -> e ≠ KeyError ->
  no_raise e (build_neighbor_sampler self data nw kw).
Proof.
  intros H1 H2 H3. unfold build_neighbor_sampler, construct_external.
  no_raise_auto.
Qed.

Lemma no_raise_drop_sampler_kwargs e self :
  e ≠ AttributeError -> e ≠ TypeError -> no_raise e (drop_sampler_kwargs self).
Proof.
  intros H1 H2. unfold drop_sampler_kwargs, getattr_or_none, dict_pop.
  no_raise_auto. apply no_raise_for_each. intros x. no_raise_auto.
Qed.

#[export] Hint Resolve no_raise_base_prepare no_raise_infer_input_nodes no_raise_base_init
  no_raise_reset_for_full no_raise_base_init_kwargs no_raise_reset_pin_memory
  no_raise_build_neighbor_sampler no_raise_drop_sampler_kwargs : no_raise.

Lemma existsb_eq_str v (l : list string) :
  existsb (eq_str v) l = true <-> v ∈ VStr <$> l.
Proof.
  rewrite existsb_exists, list_elem_of_fmap. split.
  - intros (x & Hx & Hv). exists x. destruct v; try discriminate.
    cbn in Hv. apply String.eqb_eq in Hv. subst. split; [done|].
    by apply list_elem_of_In.
  - intros (x & -> & Hx). exists x. split; [by apply list_elem_of_In|].
    cbn. apply String.eqb_refl.
Qed.

Lemma node_init_assertion self a s :
  (LightningNodeData.__init__ self a s).1 = Raise AssertionError <->
  LightningNodeData.effective_loader a ∉ VStr <$> ["full"; "neighbor"; "custom"].
Proof.
  unfold LightningNodeData.__init__.
  rewrite <- existsb_eq_str.
  destruct (existsb _ _) eqn:E; cbn [negb].
  - split; [|intros H; by destruct H].
    intros H. exfalso.
    match type of H with (?m s).1 = _ =>
      assert (Hn : no_raise AssertionError m) end.
    { unfold LightningNodeData.infer_nodes, LightningNodeData.infer_val_nodes.
      no_raise_auto. }
    apply (Hn s). rewrite H. reflexivity.
  - split; [intros _; congruence | reflexivity].
Qed.

Lemma getattr_run v n s :
  getattr v n s =
  (match attr (heap s) v n with Some x => Ok x | None => Raise AttributeError end, s).
Proof.
  unfold getattr, attr, attrs_of. repeat case_match; simplify_eq/=; try done;
    repeat case_match; simplify_eq/=; done.
Qed.


Lemma as_int_py_gt v n z : as_int v = Some n -> py_gt v z = Ok (Z.ltb z n).
Proof. destruct v; cbn; intros; simplify_eq; done. Qed.

Lemma require_single_device_run s self n :
  reported_devices s self = Some n ->
  require_single_device self s =
  (if Z.ltb 1 n then Raise ValueError else Ok tt, s).
Proof.
  unfold reported_devices, require_single_device. intros H.
  destruct (attr (heap s) self "trainer") as [tr|] eqn:Etr; [|done]. cbn in H.
  rewrite run_bind. unfold catch. rewrite run_bind, getattr_run, Etr, getattr_run.
  destruct (attr (heap s) tr "num_devices") as [v|] eqn:Ev.
  - rewrite run_bind. unfold lift. rewrite (as_int_py_gt _ _ _ H).
    by destruct (1 <? n)%Z.
  - rewrite decide_True by done.
    rewrite !run_bind, !getattr_run, Etr, !run_bind, !getattr_run.
    destruct (attr (heap s) tr "num_processes") as [p|]; [|done]. cbn in H.
    destruct (as_int p) as [x|] eqn:Ex; [|done]. cbn in H.
    rewrite run_bind, getattr_run, Etr, run_bind, getattr_run.
    destruct (attr (heap s) tr "num_gpus") as [g|]; [|done]. cbn in H.
    destruct (as_int g) as [y|] eqn:Ey; [|done]. cbn in H. simplify_eq.
    unfold lift, py_max. rewrite Ex, Ey.
    assert (Hm : as_int (if (x <? y)%Z then g else p) = Some (x `max` y)%Z).
    { destruct (Z.ltb_spec x y); [rewrite Ey | rewrite Ex]; f_equal; lia. }
    rewrite (as_int_py_gt _ _ _ Hm). by destruct (1 <? _)%Z.
Qed.

(** ** [prepare_data] *)

Lemma class_of_run s l c attrs :
  heap s !! l = Some (OModule c attrs) -> class_of (VRef l) s = (Ok c, s).
Proof. intros H. unfold class_of. by rewrite H. Qed.

Lemma attr_module s l c attrs n :
  heap s !! l = Some (OModule c attrs) -> attr (heap s) (VRef l) n = attrs !! n.
Proof. intros H. unfold attr, attrs_of. by rewrite H. Qed.

Lemma guarded_prepare_data_run (s : state) self v n :
  attr (heap s) self "loader" = Some v ->
  (eq_str v "full" = true -> reported_devices s self = Some n) ->
  (loader ← getattr self "loader";
   (if eq_str loader "full" then require_single_device self else mret tt);;
   LightningDataModule.prepare_data self) s =
  if eq_str v "full" && Z.ltb 1 n then (Raise ValueError, s)
  else LightningDataModule.prepare_data self s.
Proof.
  intros Hv Hn. rewrite run_bind, getattr_run, Hv, run_bind.
  destruct (eq_str v "full"); [|done].
  rewrite (require_single_device_run _ _ _ (Hn eq_refl)).
  by destruct (1 <? n)%Z.
Qed.




(** C6.  For every [LightningNodeData] or [LightningLinkData] instance
    whose loader is ['full'], with a trainer that reports [n] devices:
    [prepare_data] raises [ValueError] exactly when [n > 1]; with a single
    device it goes on to the base class's strategy check. *)
Theorem prepare_data_full_single_device s l c attrs v n :
  heap s !! l = Some (OModule c attrs) ->
  overrides_prepare_data c = true ->
  attrs !! "loader" = Some v ->
  eq_str v "full" = true ->
  reported_devices s (VRef l) = Some n ->
  ((prepare_data (VRef l) s).1 = Raise ValueError <-> (1 < n)%Z)
  ∧ ((n <= 1)%Z ->
     prepare_data (VRef l) s = LightningDataModule.prepare_data (VRef l) s).
Proof.
  intros Hl Hc Hv Hfull Hn.
  assert (Hrun : prepare_data (VRef l) s =
                 if Z.ltb 1 n then (Raise ValueError, s)
                 else LightningDataModule.prepare_data (VRef l) s).
  { unfold prepare_data. rewrite run_bind, (class_of_run _ _ _ _ Hl).
    destruct c; try discriminate Hc.
    - unfold LightningNodeData.prepare_data.
      rewrite (guarded_prepare_data_run s _ v n); [by rewrite Hfull| |done].
      by rewrite (attr_module _ _ _ _ _ Hl).
    - unfold LightningLinkData.prepare_data.
      rewrite (guarded_prepare_data_run s _ v n); [by rewrite Hfull| |done].
      by rewrite (attr_module _ _ _ _ _ Hl). }
  rewrite Hrun. destruct (Z.ltb_spec 1 n) as [Hlt|Hge].
  - split; [done | lia].
  - split; [|done]. split; [|lia]. intros H. exfalso.
    apply (no_raise_base_prepare ValueError (VRef l)) with (s := s);
      try discriminate.
    by rewrite H.
Qed.

Lemma prepare_data_full_single_device_witness :
  (((prepare_data (VRef 1) full_node_two_devices.2).1 = Raise ValueError
    <-> (1 < 2)%Z)
   ∧ ((2 <= 1)%Z ->
      prepare_data (VRef 1) full_node_two_devices.2
      = LightningDataModule.prepare_data (VRef 1) full_node_two_devices.2))
  ∧ (((prepare_data (VRef 1) full_node_one_device.2).1 = Raise ValueError
      <-> (1 < 1)%Z)
     ∧ ((1 <= 1)%Z ->
        prepare_data (VRef 1) full_node_one_device.2
        = LightningDataModule.prepare_data (VRef 1) full_node_one_device.2)).
Proof.
  split.
  - eapply (prepare_data_full_single_device full_node_two_devices.2 1
              ClsLightningNodeData _ (VStr "full") 2).
    + vm_compute. reflexivity.
    + reflexivity.
    + vm_compute. reflexivity.
    + reflexivity.
    + vm_compute. reflexivity.
  - eapply (prepare_data_full_single_device full_node_one_device.2 1
              ClsLightningNodeData _ (VStr "full") 1).
    + vm_compute. reflexivity.
    + reflexivity.
    + vm_compute. reflexivity.
    + reflexivity.
    + vm_compute. reflexivity.
Defined.

(** ** Argument validation *)

Lemma link_init_assertion self a s :
  (LightningLinkData.__init__ self a s).1 = Raise AssertionError <->
  LightningLinkData.effective_loader a
    ∉ VStr <$> ["full"; "neighbor"; "link_neighbor"; "custom"].
Proof.
  unfold LightningLinkData.__init__.
  rewrite <- existsb_eq_str.
  destruct (existsb _ _) eqn:E; cbn [negb].
  - split; [|intros H; by destruct H].
    intros H. exfalso.
    match type of H with (?m s).1 = _ =>
      assert (Hn : no_raise AssertionError m) end.
    { no_raise_auto. }
    apply (Hn s). by rewrite H.
  - split; [intros _; congruence | reflexivity].
Qed.

(** C5.  [LightningNodeData.__init__] fails its assertion exactly when no
    [node_sampler] is given and [loader] is none of ['full'], ['neighbor'],
    ['custom'] (a given sampler overrides [loader] to ['custom']);
    [LightningLinkData.__init__] exactly when no [link_sampler] is given and
    [loader] is none of ['full'], ['neighbor'], ['link_neighbor'],
    ['custom']. *)
Theorem init_loader_assertion self s :
  (∀ a, (LightningNodeData.__init__ self a s).1 = Raise AssertionError <->
        LightningNodeData.node_sampler a = VNone
        ∧ LightningNodeData.loader a ∉ VStr <$> ["full"; "neighbor"; "custom"])
  ∧ (∀ a, (LightningLinkData.__init__ self a s).1 = Raise AssertionError <->
          LightningLinkData.link_sampler a = VNone
          ∧ LightningLinkData.loader a
              ∉ VStr <$> ["full"; "neighbor"; "link_neighbor"; "custom"]).
Proof.
  split; intros a.
  - rewrite node_init_assertion. unfold LightningNodeData.effective_loader.
    destruct (LightningNodeData.node_sampler a); cbn [is_none negb];
      try (split; [intros H; exfalso; apply H; set_solver | intros [? _]; done]).
    split; [done | by intros [_ ?]].
  - rewrite link_init_assertion. unfold LightningLinkData.effective_loader.
    destruct (LightningLinkData.link_sampler a); cbn [is_none negb];
      try (split; [intros H; exfalso; apply H; set_solver | intros [? _]; done]).
    split; [done | by intros [_ ?]].
Qed.

(** ** The base initialiser *)

Lemma setattr_module_run s l c attrs n x :
  heap s !! l = Some (OModule c attrs) ->
  setattr (VRef l) n x s =
  (Ok tt, State (globals s) (<[l := OModule c (<[n := x]> attrs)]> (heap s))
                (next_loc s) (warnings s) (warning_filters s)).
Proof. intros H. unfold setattr. by rewrite H. Qed.

Lemma setattr_ok_run s l c args kw attrs n x :
  heap s !! l = Some (OExternal c args kw attrs) ->
  setattr (VRef l) n x s =
  (Ok tt, State (globals s) (<[l := OExternal c args kw (<[n := x]> attrs)]> (heap s))
                (next_loc s) (warnings s) (warning_filters s)).
Proof. intros H. unfold setattr. by rewrite H. Qed.

Lemma base_init_flags_run {B} (k : M B) s l c attrs hv ht :
  heap s !! l = Some (OModule c attrs) ->
  ((if negb hv then setattr (VRef l) "val_dataloader" VNone else mret tt);;
   (if negb ht then setattr (VRef l) "test_dataloader" VNone else mret tt);;
   k) s =
  k (State (globals s) (<[l := OModule c (split_flags hv ht attrs)]> (heap s))
           (next_loc s) (warnings s) (warning_filters s)).
Proof.
  intros H. rewrite run_bind. unfold split_flags, mret, M_ret.
  destruct hv, ht; cbn [negb].
  - rewrite insert_id by done. by destruct s.
  - rewrite run_bind. by rewrite (setattr_module_run _ _ _ _ _ _ H).
  - by rewrite (setattr_module_run _ _ _ _ _ _ H).
  - rewrite (setattr_module_run _ _ _ _ _ _ H), run_bind.
    erewrite setattr_module_run by (cbn; apply lookup_insert_eq).
    cbn. by rewrite insert_insert_eq.
Qed.

Lemma base_init_run s l c attrs hv ht (kwargs d : gmap string pyval) :
  no_pytorch_lightning (globals s) = false ->
  heap s !! l = Some (OModule c attrs) ->
  l ≠ next_loc s ->
  final_kwargs kwargs = Some d ->
  LightningDataModule.__init__ (VRef l) hv ht kwargs s =
  (Ok tt,
   State (globals s)
     (<[l := OModule c (<["kwargs" := VRef (next_loc s)]> (split_flags hv ht attrs))]>
        (<[next_loc s := ODict d]> (heap s)))
     (S (next_loc s)) (warnings s ++ shuffle_warning c kwargs) (warning_filters s)).
Proof.
  intros Hpl Hl Hne Hd. unfold LightningDataModule.__init__.
  rewrite run_bind. cbn [ask]. rewrite Hpl.
  rewrite (base_init_flags_run _ _ _ _ _ _ _ Hl).
  set (s1 := State _ _ _ _ _).
  assert (Hl1 : heap s1 !! l = Some (OModule c (split_flags hv ht attrs)))
    by apply lookup_insert_eq.
  rewrite run_bind.
  assert (Hsh :
    match kwargs !! "shuffle" with
    | Some given =>
        cls ← class_of (VRef l);
        warn (WarnShuffleIgnored cls given);;
        mret (delete "shuffle" kwargs)
    | None => mret kwargs
    end s1 =
    (Ok (delete "shuffle" kwargs),
     State (globals s) (heap s1) (next_loc s)
           (warnings s ++ shuffle_warning c kwargs) (warning_filters s))).
  { unfold shuffle_warning. destruct (kwargs !! "shuffle") eqn:E.
    - by rewrite run_bind, (class_of_run _ _ _ _ Hl1).
    - rewrite delete_id by done. cbn. by rewrite app_nil_r. }
  rewrite Hsh. clear Hsh. unfold final_kwargs in Hd. cbv zeta in Hd.
  set (k2 := if has_key "pin_memory" (delete "shuffle" kwargs) then _ else _) in *.
  rewrite run_bind.
  assert (Hk :
    (if has_key "persistent_workers" k2 then mret k2
     else b ← lift (py_gt (dict_get k2 "num_workers" (VInt 0)) 0);
          mret (<["persistent_workers" := VBool b]> k2))
      (State (globals s) (heap s1) (next_loc s)
             (warnings s ++ shuffle_warning c kwargs) (warning_filters s)) =
    (Ok d, State (globals s) (heap s1) (next_loc s)
                 (warnings s ++ shuffle_warning c kwargs) (warning_filters s))).
  { destruct (has_key "persistent_workers" k2); [by simplify_eq|].
    rewrite run_bind. unfold lift.
    destruct (py_gt _ _); by simplify_eq. }
  rewrite Hk. clear Hk. rewrite run_bind. cbn [alloc next_loc heap globals warnings warning_filters].
  erewrite setattr_module_run; cycle 1.
  { cbn. rewrite lookup_insert_ne by done. apply Hl1. }
  cbn. f_equal. f_equal. subst s1. cbn.
  rewrite (insert_insert_ne _ (next_loc s) l) by done.
  by rewrite insert_insert_eq.
Qed.

Lemma has_key_true k (d : gmap string pyval) : has_key k d = true <-> is_Some (d !! k).
Proof. unfold has_key. apply bool_decide_eq_true. Qed.

Lemma has_key_false k (d : gmap string pyval) : has_key k d = false <-> d !! k = None.
Proof.
  unfold has_key. rewrite bool_decide_eq_false. symmetry. apply eq_None_not_Some.
Qed.

Lemma final_kwargs_lookup (kwargs d : gmap string pyval) :
  final_kwargs kwargs = Some d ->
  d !! "shuffle" = None
  ∧ d !! "pin_memory" = Some (default (VBool true) (kwargs !! "pin_memory"))
  ∧ (∀ b, (kwargs !! "persistent_workers" = None -> workers_positive kwargs = Some b) ->
       d !! "persistent_workers"
       = Some (default (VBool b) (kwargs !! "persistent_workers")))
  ∧ (∀ key, key ∉ ["shuffle"; "pin_memory"; "persistent_workers"] ->
       d !! key = kwargs !! key).
Proof.
  unfold final_kwargs, workers_positive. cbv zeta.
  set (k2 := if has_key "pin_memory" (delete "shuffle" kwargs) then _ else _).
  assert (Hk2 : ∀ key, key ≠ "pin_memory" -> key ≠ "shuffle" ->
                        k2 !! key = kwargs !! key).
  { intros key H1 H2. subst k2. destruct (has_key _ _).
    - by rewrite lookup_delete_ne.
    - rewrite lookup_insert_ne by done. by rewrite lookup_delete_ne. }
  assert (Hsh : k2 !! "shuffle" = None).
  { subst k2. destruct (has_key _ _).
    - apply lookup_delete_eq.
    - rewrite lookup_insert_ne by done. apply lookup_delete_eq. }
  assert (Hpin : k2 !! "pin_memory"
                 = Some (default (VBool true) (kwargs !! "pin_memory"))).
  { subst k2. destruct (has_key _ _) eqn:E.
    - apply has_key_true in E as [x Hx]. rewrite Hx.
      rewrite lookup_delete_ne in Hx by done. by rewrite Hx.
    - apply has_key_false in E. rewrite lookup_delete_ne in E by done.
      rewrite E. apply lookup_insert_eq. }
  assert (Hnw : dict_get k2 "num_workers" (VInt 0)
                = dict_get kwargs "num_workers" (VInt 0)).
  { unfold dict_get. by rewrite Hk2. }
  destruct (has_key "persistent_workers" k2) eqn:E.
  - intros ?; simplify_eq. apply has_key_true in E as [x Hx].
    repeat split; try done.
    + intros b _. rewrite Hx. rewrite Hk2 in Hx by done. by rewrite Hx.
    + intros key Hkey. apply Hk2; set_solver.
  - apply has_key_false in E. rewrite Hnw.
    destruct (py_gt _ _) as [b'|] eqn:Eg; [|done]. intros ?; simplify_eq.
    repeat split.
    + by rewrite lookup_insert_ne.
    + by rewrite lookup_insert_ne.
    + intros b Hb. rewrite lookup_insert_eq.
      rewrite Hk2 in E by done. rewrite E. cbn. specialize (Hb E).
      destruct (as_int _) as [n|] eqn:En; [|done].
      rewrite (as_int_py_gt _ _ _ En) in Eg. cbn in Hb. by simplify_eq.
    + intros key Hkey. rewrite lookup_insert_ne by set_solver.
      apply Hk2; set_solver.
Qed.

Lemma final_kwargs_defined (kwargs : gmap string pyval) b :
  (kwargs !! "persistent_workers" = None -> workers_positive kwargs = Some b) ->
  is_Some (final_kwargs kwargs).
Proof.
  unfold final_kwargs, workers_positive. cbv zeta. intros Hb.
  set (k2 := if has_key "pin_memory" (delete "shuffle" kwargs) then _ else _).
  assert (Hk2 : ∀ key, key ≠ "pin_memory" -> key ≠ "shuffle" ->
                        k2 !! key = kwargs !! key).
  { intros key H1 H2. subst k2. destruct (has_key _ _).
    - by rewrite lookup_delete_ne.
    - rewrite lookup_insert_ne by done. by rewrite lookup_delete_ne. }
  destruct (has_key "persistent_workers" k2) eqn:E; [done|].
  apply has_key_false in E. rewrite Hk2 in E by done. specialize (Hb E).
  unfold dict_get in *. rewrite Hk2 by done.
  destruct (as_int _) as [n|] eqn:En; [|done].
  by rewrite (as_int_py_gt _ _ _ En).
Qed.

(** C3.  The base initialiser, given an allocated instance and with
    [pytorch_lightning] importable, stores in [self.kwargs] the mapping it
    was passed with ['shuffle'] removed (and a warning emitted exactly when
    it was present), ['pin_memory'] set to [True] when absent,
    ['persistent_workers'] set to [num_workers > 0] when absent, and every
    other key kept with its value. *)
Theorem base_init_stores_kwargs s l c attrs hv ht (kwargs : gmap string pyval) b :
  no_pytorch_lightning (globals s) = false ->
  heap s !! l = Some (OModule c attrs) ->
  l < next_loc s ->
  (kwargs !! "persistent_workers" = None -> workers_positive kwargs = Some b) ->
  ∃ s' k d,
    LightningDataModule.__init__ (VRef l) hv ht kwargs s = (Ok tt, s')
    ∧ attr (heap s') (VRef l) "kwargs" = Some (VRef k)
    ∧ heap s' !! k = Some (ODict d)
    ∧ d !! "shuffle" = None
    ∧ d !! "pin_memory" = Some (default (VBool true) (kwargs !! "pin_memory"))
    ∧ d !! "persistent_workers"
      = Some (default (VBool b) (kwargs !! "persistent_workers"))
    ∧ (∀ key, key ∉ ["shuffle"; "pin_memory"; "persistent_workers"] ->
         d !! key = kwargs !! key)
    ∧ warnings s' = (warnings s ++ shuffle_warning c kwargs)%list.
Proof.
  intros Hpl Hl Hlt Hb.
  destruct (final_kwargs_defined _ _ Hb) as [d Hd].
  destruct (final_kwargs_lookup _ _ Hd) as (H1 & H2 & H3 & H4).
  eexists _, (next_loc s), d. split.
  { eapply base_init_run; [exact Hpl | exact Hl | lia | exact Hd]. }
  cbn [heap warnings]. repeat split; try done.
  - unfold attr, attrs_of. rewrite lookup_insert_eq. cbn. apply lookup_insert_eq.
  - rewrite lookup_insert_ne by lia. apply lookup_insert_eq.
  - by apply H3.
Qed.

Lemma base_init_stores_kwargs_witness :
  ∃ s' k d,
    LightningDataModule.__init__ (VRef 1) true false shuffle_kwargs fresh_base
    = (Ok tt, s')
    ∧ attr (heap s') (VRef 1) "kwargs" = Some (VRef k)
    ∧ heap s' !! k = Some (ODict d)
    ∧ d !! "shuffle" = None
    ∧ d !! "pin_memory"
      = Some (default (VBool true) (shuffle_kwargs !! "pin_memory"))
    ∧ d !! "persistent_workers"
      = Some (default (VBool true) (shuffle_kwargs !! "persistent_workers"))
    ∧ (∀ key, key ∉ ["shuffle"; "pin_memory"; "persistent_workers"] ->
         d !! key = shuffle_kwargs !! key)
    ∧ warnings s'
      = (warnings fresh_base
         ++ shuffle_warning ClsLightningDataModule shuffle_kwargs)%list.
Proof.
  apply (base_init_stores_kwargs fresh_base 1 ClsLightningDataModule ∅
           true false shuffle_kwargs true).
  - reflexivity.
  - vm_compute. reflexivity.
  - vm_compute. lia.
  - intros _. vm_compute. reflexivity.
Defined.

(** ** Readers and frames *)

Lemma reader_bind {A B} (m : M A) (f : A -> M B) :
  reader m -> (∀ a, reader (f a)) -> reader (m ≫= f).
Proof.
  intros Hm Hf s. rewrite run_bind. specialize (Hm s).
  destruct (m s) as [[a|e] s1]; cbn in Hm; subst; [apply Hf | done].
Qed.

Lemma reader_ret {A} (a : A) : reader (mret a : M A).
Proof. done. Qed.

Lemma reader_raise {A} e : reader (raise e : M A).
Proof. done. Qed.

Lemma reader_lift {A} (o : outcome A) : reader (lift o).
Proof. done. Qed.

Lemma reader_catch {A} (m h : M A) e :
  reader m -> reader h -> reader (catch m e h).
Proof.
  intros Hm Hh s. unfold catch. specialize (Hm s).
  destruct (m s) as [[a|e'] s1]; cbn in Hm; subst; [done|].
  destruct (decide _); [apply Hh | done].
Qed.

Ltac prim_reader :=
  let s := fresh "s" in
  intros s; cbv beta delta [getattr read_dict class_of ask isinstance_ truthy_
    signature_of py_contains read_input_nodes kwargs_get call_kwargs raise mret M_ret];
  repeat case_match; simplify_eq/=; done.

Lemma reader_getattr v n : reader (getattr v n).
Proof. prim_reader. Qed.
Lemma reader_read_dict v : reader (read_dict v).
Proof. prim_reader. Qed.
Lemma reader_class_of v : reader (class_of v).
Proof. prim_reader. Qed.
Lemma reader_ask : reader ask.
Proof. prim_reader. Qed.
Lemma reader_isinstance_ v c : reader (isinstance_ v c).
Proof. prim_reader. Qed.
Lemma reader_truthy_ v : reader (truthy_ v).
Proof. prim_reader. Qed.
Lemma reader_signature_of v : reader (signature_of v).
Proof. prim_reader. Qed.
Lemma reader_py_contains k v : reader (py_contains k v).
Proof. prim_reader. Qed.
Lemma reader_read_input_nodes v k : reader (read_input_nodes v k).
Proof. prim_reader. Qed.
Lemma reader_call_kwargs p x k : reader (call_kwargs p x k).
Proof. prim_reader. Qed.
Lemma reader_kwargs_get v k : reader (kwargs_get v k).
Proof.
  intros s. unfold kwargs_get. rewrite getattr_run.
  repeat case_match; simplify_eq/=; done.
Qed.

Create HintDb reader.
#[export] Hint Resolve reader_ret reader_raise reader_lift reader_getattr
  reader_read_dict reader_class_of reader_ask reader_isinstance_ reader_truthy_
  reader_signature_of reader_py_contains reader_read_input_nodes
  reader_call_kwargs reader_kwargs_get : reader.

(** Decomposes a [reader] goal along the structure of the computation. *)
Ltac reader_step :=
  match goal with
  | |- reader (_ ≫= _) => apply reader_bind; [|intros ?]
  | |- reader (catch _ _ _) => apply reader_catch
  | |- reader (if ?c then _ else _) => destruct c
  | |- reader (match ?c with _ => _ end) => destruct c
  | |- reader _ => solve [auto with reader]
  end.
Ltac reader_auto := repeat reader_step.

Lemma reader_infer_input_nodes data split : reader (infer_input_nodes data split).
Proof. unfold infer_input_nodes, infer_attr_name. reader_auto. Qed.

Lemma reader_base_init_kwargs hv ht bs nw kw : reader (base_init_kwargs hv ht bs nw kw).
Proof. unfold base_init_kwargs. reader_auto. Qed.

Lemma reader_no_custom_sampler self : reader (no_custom_sampler self).
Proof. unfold no_custom_sampler. reader_auto. Qed.

Lemma reader_unpack_kwargs self : reader (unpack_kwargs self).
Proof. unfold unpack_kwargs. reader_auto. Qed.

Lemma reader_base_prepare self : reader (LightningDataModule.prepare_data self).
Proof. unfold LightningDataModule.prepare_data. reader_auto. Qed.

#[export] Hint Resolve reader_infer_input_nodes reader_base_init_kwargs
  reader_no_custom_sampler reader_unpack_kwargs reader_base_prepare : reader.

Section Respects.
Context (R : relation state) `{!PreOrder R}.

Lemma respects_reader {A} (m : M A) : reader m -> respects R m.
Proof. intros H s. by rewrite H. Qed.

Lemma respects_bind {A B} (m : M A) (f : A -> M B) :
  respects R m -> (∀ a, respects R (f a)) -> respects R (m ≫= f).
Proof.
  intros Hm Hf s. rewrite run_bind. specialize (Hm s).
  destruct (m s) as [[a|e] s1]; cbn in Hm; [|done].
  etrans; [exact Hm | apply Hf].
Qed.

Lemma respects_catch {A} (m h : M A) e :
  respects R m -> respects R h -> respects R (catch m e h).
Proof.
  intros Hm Hh s. unfold catch. specialize (Hm s).
  destruct (m s) as [[a|e'] s1]; cbn in Hm; [done|].
  destruct (decide _); [|done]. etrans; [exact Hm | apply Hh].
Qed.

Lemma respects_for_each {A} (xs : list A) (body : A -> M unit) :
  (∀ x, respects R (body x)) -> respects R (for_each xs body).
Proof.
  intros H. induction xs as [|x xs IH]; cbn.
  - by apply respects_reader.
  - apply respects_bind; [apply H | intros _; exact IH].
Qed.

Lemma stops_bind_l P {A B} (m : M A) (f : A -> M B) :
  stops P R m -> stops P R (m ≫= f).
Proof.
  intros Hm s HP. rewrite run_bind. destruct (Hm s HP) as [H1 H2].
  destruct (m s) as [[a|e] s1]; cbn in *; done.
Qed.


End Respects.

Global Instance same_heap_preorder : PreOrder same_heap.
Proof.
  split.
  - by intros s.
  - intros s1 s2 s3 (H1 & H2 & H3) (H4 & H5 & H6). repeat split; congruence.
Qed.

Global Instance extends_preorder : PreOrder extends.
Proof.
  split.
  - intros s. repeat split; auto.
  - intros s1 s2 s3 (H1 & H2 & H3 & H4) (H5 & H6 & H7 & H8).
    repeat split; try congruence; try lia.
    intros l Hl. rewrite H7 by lia. by apply H3.
Qed.

(** Decomposes a [respects] goal; what is left are the writes. *)
Ltac respects_step :=
  match goal with
  | |- respects _ _ => solve [auto with respects]
  | |- respects _ (_ ≫= _) => apply respects_bind; [tc_solve| |intros ?]
  | |- respects _ (catch _ _ _) => apply respects_catch; [tc_solve| |]
  | |- respects _ (for_each _ _) => apply respects_for_each; [tc_solve|intros ?]
  | |- respects _ _ =>
      first [ solve [auto with respects]
            | solve [apply respects_reader; [tc_solve | reader_auto]] ]
  | |- respects _ (if ?c then _ else _) => destruct c
  | |- respects _ (match ?c with _ => _ end) => destruct c
  end.
Ltac respects_auto := repeat respects_step.

Create HintDb respects.

Lemma same_heap_warn w : respects same_heap (warn w).
Proof. by intros s. Qed.

Lemma same_heap_filterwarnings p : respects same_heap (filterwarnings p).
Proof. by intros s. Qed.

#[export] Hint Resolve same_heap_warn same_heap_filterwarnings : respects.

Lemma same_heap_reset_for_full self loader given target w :
  respects same_heap (reset_for_full self loader given target w).
Proof. unfold reset_for_full. respects_auto. Qed.

Global Instance keeps_globals_preorder : PreOrder keeps_globals.
Proof. split; [by intros s | intros s1 s2 s3; unfold keeps_globals; congruence]. Qed.

Lemma keeps_globals_alloc o : respects keeps_globals (alloc o).
Proof. by intros s. Qed.
Lemma keeps_globals_store l o : respects keeps_globals (store l o).
Proof. by intros s. Qed.
Lemma keeps_globals_warn w : respects keeps_globals (warn w).
Proof. by intros s. Qed.
Lemma keeps_globals_filterwarnings p : respects keeps_globals (filterwarnings p).
Proof. by intros s. Qed.
Lemma keeps_globals_setattr v n x : respects keeps_globals (setattr v n x).
Proof. intros s. unfold setattr. by repeat case_match. Qed.

#[export] Hint Resolve keeps_globals_alloc keeps_globals_store keeps_globals_warn
  keeps_globals_filterwarnings keeps_globals_setattr : respects.

(** Every method keeps the environment: unfolds the remaining helpers. *)
Ltac keeps_globals_auto :=
  unfold reset_for_full, reset_pin_memory, build_neighbor_sampler,
    drop_sampler_kwargs, getattr_or_none, dict_set, dict_pop, copy_dict,
    construct_external, LightningNodeData.infer_nodes,
    LightningNodeData.infer_val_nodes;
  respects_auto.

Lemma keeps_globals_base_init self hv ht kw :
  respects keeps_globals (LightningDataModule.__init__ self hv ht kw).
Proof. unfold LightningDataModule.__init__. keeps_globals_auto. Qed.

#[export] Hint Resolve keeps_globals_base_init : respects.




(** ** Construction without [pytorch_lightning] *)


Lemma base_init_no_lightning self hv ht kw s :
  no_pytorch_lightning (globals s) = true ->
  LightningDataModule.__init__ self hv ht kw s = (Raise ModuleNotFoundError, s).
Proof.
  intros H. unfold LightningDataModule.__init__.
  rewrite run_bind. cbn [ask]. by rewrite H.
Qed.



#[export] Hint Resolve same_heap_reset_for_full : respects.













(** ** Input-node inference *)

Lemma py_contains_run s l o key :
  heap s !! l = Some o ->
  (∃ st, o = OData st) ∨ (∃ g ns es, o = OHeteroData g ns es) ->
  py_contains key (VRef l) s = (Ok (present o key), s).
Proof.
  intros Hl [[st ->]|(g & ns & es & ->)]; unfold py_contains; by rewrite Hl.
Qed.

Lemma infer_attr_name_run s l o split :
  heap s !! l = Some o ->
  (∃ st, o = OData st) ∨ (∃ g ns es, o = OHeteroData g ns es) ->
  infer_attr_name (VRef l) split s = (Ok (chosen_attr o split), s).
Proof.
  intros Hl Ho. unfold infer_attr_name, chosen_attr.
  rewrite run_bind, (py_contains_run _ _ _ _ Hl Ho).
  destruct (present o (split +:+ "_mask")); [done|].
  rewrite run_bind, (py_contains_run _ _ _ _ Hl Ho).
  destruct (present o (split +:+ "_idx")); [done|].
  rewrite run_bind, (py_contains_run _ _ _ _ Hl Ho).
  by destruct (present o (split +:+ "_index")).
Qed.

Lemma chosen_attr_present o split a :
  chosen_attr o split = Some a -> present o a = true.
Proof.
  unfold chosen_attr. repeat case_match; intros; simplify_eq; done.
Qed.

Lemma collect_length key ns es :
  length (collect key ns es) = carrier_count key ns es.
Proof.
  unfold collect, carrier_count.
  by rewrite length_app, !length_fmap, !length_map_to_list.
Qed.

Lemma collect_carries key ns es ty v :
  (ty, v) ∈ collect key ns es -> carries key ns es ty v.
Proof.
  unfold collect, carries, carriers. rewrite elem_of_app, !list_elem_of_fmap.
  intros [([t x] & Heq & Hin)|([t x] & Heq & Hin)];
    apply elem_of_map_to_list in Hin; rewrite lookup_omap in Hin;
    cbn in Heq; simplify_eq; [left|right].
  - destruct (ns !! t) as [st|] eqn:E; [|done]. cbn in Hin. by exists t, st.
  - destruct (es !! t) as [st|] eqn:E; [|done]. cbn in Hin. by exists t, st.
Qed.

Lemma infer_hetero_run s l g ns es split :
  heap s !! l = Some (OHeteroData g ns es) ->
  infer_input_nodes (VRef l) split s =
  (match chosen_attr (OHeteroData g ns es) split with
   | None => Ok VNone
   | Some a =>
       match collect a ns es with
       | [(ty, v)] => Ok (VTuple [ty; v])
       | _ => Raise ValueError
       end
   end, s).
Proof.
  intros Hl. unfold infer_input_nodes.
  rewrite run_bind, (infer_attr_name_run _ _ _ _ Hl) by eauto 10.
  destruct (chosen_attr _ _) as [a|]; [|done].
  unfold read_input_nodes. rewrite Hl. by repeat case_match.
Qed.

Lemma infer_data_run s l st split :
  heap s !! l = Some (OData st) ->
  infer_input_nodes (VRef l) split s =
  (Ok match chosen_attr (OData st) split with
      | None => VNone
      | Some a => default VNone (st !! a)
      end, s).
Proof.
  intros Hl. unfold infer_input_nodes.
  rewrite run_bind, (infer_attr_name_run _ _ _ _ Hl) by eauto 10.
  destruct (chosen_attr _ _) as [a|] eqn:E; [|done].
  unfold read_input_nodes. rewrite Hl.
  apply chosen_attr_present in E. cbn in E. apply has_key_true in E as [v Hv].
  by rewrite Hv.
Qed.

Lemma setattr_ok_inv v n x s u s' :
  setattr v n x s = (Ok u, s') ->
  attr (heap s') v n = Some x
  ∧ (∀ n', n' ≠ n -> attr (heap s') v n' = attr (heap s) v n').
Proof.
  unfold setattr, attr, attrs_of. destruct v; try discriminate.
  unfold store.
  destruct (heap s !! l) as [[]|] eqn:E; try discriminate;
    intros ?; simplify_eq; cbn [heap]; rewrite lookup_insert_eq; cbn;
    (split; [apply lookup_insert_eq | intros n' Hn; by rewrite lookup_insert_ne]).
Qed.

Lemma reader_ok_inv {A} (m : M A) s a s' :
  reader m -> m s = (Ok a, s') -> s' = s.
Proof. intros H E. specialize (H s). by rewrite E in H. Qed.

(** Splits a successful sequence [H] into its first step and the rest. *)
Ltac inv_bind H :=
  let a := fresh "a" in
  let s := fresh "s" in
  let H1 := fresh "Hstep" in
  apply bind_ok_inv in H as (a & s & H1 & H).

(** Same, for a first step that writes an attribute. *)
Ltac inv_setattr H :=
  let a := fresh "a" in
  let s := fresh "s" in
  let H1 := fresh "Hstep" in
  let Hs := fresh "Hset" in
  let Hf := fresh "Hframe" in
  apply bind_ok_inv in H as (a & s & H1 & H);
  apply setattr_ok_inv in H1 as [Hs Hf].

Ltac inv_reader H :=
  let a := fresh "a" in
  let s := fresh "s" in
  let H1 := fresh "Hread" in
  let Hr := fresh "Hr" in
  apply bind_ok_inv in H as (a & s & H1 & H);
  assert (Hr := H1); apply reader_ok_inv in Hr; [subst s | solve [reader_auto]].

Lemma reader_infer_nodes a given split :
  reader (LightningNodeData.infer_nodes a given split).
Proof. unfold LightningNodeData.infer_nodes. reader_auto. Qed.

Lemma reader_infer_val_nodes a : reader (LightningNodeData.infer_val_nodes a).
Proof. unfold LightningNodeData.infer_val_nodes. reader_auto. Qed.

#[export] Hint Resolve reader_infer_nodes reader_infer_val_nodes : reader.

Lemma node_init_input_nodes self a s s' :
  LightningNodeData.__init__ self a s = (Ok tt, s') ->
  ∃ tn vn te pn,
    LightningNodeData.infer_nodes a (LightningNodeData.input_train_nodes a) "train" s
    = (Ok tn, s)
    ∧ LightningNodeData.infer_val_nodes a s = (Ok vn, s)
    ∧ LightningNodeData.infer_nodes a (LightningNodeData.input_test_nodes a) "test" s
      = (Ok te, s)
    ∧ LightningNodeData.infer_nodes a (LightningNodeData.input_pred_nodes a) "pred" s
      = (Ok pn, s)
    ∧ attr (heap s') self "input_train_nodes" = Some tn
    ∧ attr (heap s') self "input_val_nodes" = Some vn
    ∧ attr (heap s') self "input_test_nodes" = Some te
    ∧ attr (heap s') self "input_pred_nodes" = Some pn.
Proof.
  unfold LightningNodeData.__init__. intros H.
  destruct (negb _); [discriminate|].
  inv_reader H. inv_reader H. inv_reader H. inv_reader H.
  do 9 inv_bind H.
  do 11 inv_setattr H. apply setattr_ok_inv in H as [HsetL HframeL].
  exists a0, a1, a2, a3. split_and!; try done.
  all: repeat match goal with
         | H : ∀ n', n' ≠ _ -> attr (heap ?s) _ n' = _
           |- attr (heap ?s) _ _ = _ => first [eassumption | rewrite H by done]
         end; eassumption.
Qed.

Lemma infer_nodes_inv a given split s v :
  LightningNodeData.infer_nodes a given split s = (Ok v, s) ->
  given_or_inferred s (LightningNodeData.data a) given split v.
Proof.
  unfold LightningNodeData.infer_nodes, given_or_inferred.
  destruct (is_none given); [done|]. by intros [= ->].
Qed.

Lemma infer_val_nodes_inv a s v :
  LightningNodeData.infer_val_nodes a s = (Ok v, s) ->
  given_or_inferred_val s (LightningNodeData.data a)
    (LightningNodeData.input_val_nodes a) v.
Proof.
  unfold LightningNodeData.infer_val_nodes, given_or_inferred_val.
  destruct (is_none (LightningNodeData.input_val_nodes a)); [|by intros [= ->]].
  intros H. inv_reader H. exists a0. split; [done|].
  destruct (is_none a0); [done|]. by injection H as ->.
Qed.

(** C9, as amended.  [infer_input_nodes] picks the attribute
    ['{split}_mask'] if present, else ['{split}_idx'], else
    ['{split}_index'], and returns [None] if none is.  On a [Data] object
    it returns the attribute's value.  On a [HeteroData] object it raises
    [ValueError] exactly when the number of node and edge types that hold
    the attribute is not one, and otherwise returns the pair of that type
    and its value.  [LightningNodeData] stores, per split, the input nodes
    it was given or else the inferred ones, trying ['val'] and then
    ['valid'] for the validation split. *)
Theorem infer_input_nodes_precedence :
  (∀ s l st split,
     heap s !! l = Some (OData st) ->
     infer_input_nodes (VRef l) split s =
     (Ok match chosen_attr (OData st) split with
         | None => VNone
         | Some a => default VNone (st !! a)
         end, s))
  ∧ (∀ s l g ns es split,
       heap s !! l = Some (OHeteroData g ns es) ->
       match chosen_attr (OHeteroData g ns es) split with
       | None => infer_input_nodes (VRef l) split s = (Ok VNone, s)
       | Some a =>
           ((infer_input_nodes (VRef l) split s).1 = Raise ValueError
            <-> carrier_count a ns es ≠ 1)
           ∧ (carrier_count a ns es = 1 ->
              ∃ ty v, carries a ns es ty v
                      ∧ infer_input_nodes (VRef l) split s
                        = (Ok (VTuple [ty; v]), s))
       end)
  ∧ (∀ self a s s',
       LightningNodeData.__init__ self a s = (Ok tt, s') ->
       ∃ tn vn te pn,
         given_or_inferred s (LightningNodeData.data a)
           (LightningNodeData.input_train_nodes a) "train" tn
         ∧ given_or_inferred_val s (LightningNodeData.data a)
             (LightningNodeData.input_val_nodes a) vn
         ∧ given_or_inferred s (LightningNodeData.data a)
             (LightningNodeData.input_test_nodes a) "test" te
         ∧ given_or_inferred s (LightningNodeData.data a)
             (LightningNodeData.input_pred_nodes a) "pred" pn
         ∧ attr (heap s') self "input_train_nodes" = Some tn
         ∧ attr (heap s') self "input_val_nodes" = Some vn
         ∧ attr (heap s') self "input_test_nodes" = Some te
         ∧ attr (heap s') self "input_pred_nodes" = Some pn).
Proof.
  split_and!.
  - intros. by apply infer_data_run.
  - intros s l g ns es split Hl. rewrite (infer_hetero_run _ _ _ _ _ _ Hl).
    destruct (chosen_attr _ _) as [a|]; [|done].
    rewrite <- collect_length.
    destruct (collect a ns es) as [|[ty v] [|]] eqn:E; cbn.
    + split; [done | lia].
    + split; [split; [done | lia]|]. intros _. exists ty, v. split; [|done].
      apply collect_carries. rewrite E. set_solver.
    + split; [done | lia].
  - intros self a s s' H.
    destruct (node_init_input_nodes _ _ _ _ H)
      as (tn & vn & te & pn & H1 & H2 & H3 & H4 & H5).
    exists tn, vn, te, pn. split_and!; try apply H5.
    + by apply infer_nodes_inv.
    + by apply infer_val_nodes_inv.
    + by apply infer_nodes_inv.
    + by apply infer_nodes_inv.
Qed.

Lemma infer_input_nodes_precedence_witness :
  infer_input_nodes (VRef 0) "valid" state0 = (Ok (tensor 2), state0)
  ∧ (∃ ty v, carries "train_mask"
               (<["paper" := {["train_mask" := tensor 1]}]>
                  {["author" := {["x" := tensor 2]}]}) ∅ ty v
             ∧ infer_input_nodes (VRef 0) "train" (state_hetero hetero_paper_mask)
               = (Ok (VTuple [ty; v]), state_hetero hetero_paper_mask))
  ∧ attr (heap (LightningNodeData.__init__ (VRef 1) neighbor_args fresh_node).2)
      (VRef 1) "input_val_nodes" = Some (tensor 2).
Proof.
  destruct infer_input_nodes_precedence as (Hdata & Hhetero & Hinit).
  split_and!.
  - rewrite (Hdata state0 0 _ "valid" eq_refl). vm_compute. reflexivity.
  - pose proof (Hhetero (state_hetero hetero_paper_mask) 0 _ _ _ "train" eq_refl) as H.
    assert (E : chosen_attr hetero_paper_mask "train" = Some "train_mask")
      by (vm_compute; reflexivity).
    unfold hetero_paper_mask in E. rewrite E in H.
    apply H. vm_compute. reflexivity.
  - destruct (Hinit (VRef 1) neighbor_args fresh_node
                (LightningNodeData.__init__ (VRef 1) neighbor_args fresh_node).2)
      as (tn & vn & te & pn & _ & Hv & _ & _ & _ & Hs & _).
    + vm_compute. reflexivity.
    + rewrite Hs. f_equal. unfold given_or_inferred_val in Hv. cbn in Hv.
      destruct Hv as (v0 & H0 & H1).
      assert (E0 : infer_input_nodes (VRef 0) "val" fresh_node = (Ok VNone, fresh_node))
        by (vm_compute; reflexivity).
      change (LightningNodeData.data neighbor_args) with (VRef 0) in *.
      rewrite E0 in H0. injection H0 as <-. cbn in H1.
      assert (E1 : infer_input_nodes (VRef 0) "valid" fresh_node
                   = (Ok (tensor 2), fresh_node)) by (vm_compute; reflexivity).
      rewrite E1 in H1. by injection H1 as <-.
Defined.

(** C9, as stated, fails: on a heterogeneous graph whose ['train_mask'] is
    a graph-level attribute, no type holds the chosen attribute, and
    [infer_input_nodes] raises [ValueError] although there is not more
    than one such type. *)
Lemma infer_input_nodes_no_carrier_counterexample :
  chosen_attr hetero_global_mask "train" = Some "train_mask"
  ∧ carrier_count "train_mask" {["paper" := {["x" := tensor 2]}]} ∅ = 0
  ∧ infer_input_nodes (VRef 0) "train" (state_hetero hetero_global_mask)
    = (Raise ValueError, state_hetero hetero_global_mask).
Proof. vm_compute. done. Qed.

(** ** Accessors only allocate *)

Lemma extends_alloc o : respects extends (alloc o).
Proof.
  intros s. unfold extends. cbn. split_and!; [done | lia | | done].
  intros l Hl. apply lookup_insert_ne. lia.
Qed.

Lemma extends_filterwarnings p : respects extends (filterwarnings p).
Proof. intros s. unfold extends. cbn. by split_and!. Qed.

Lemma extends_construct_external c args kw :
  respects extends (construct_external c args kw).
Proof. intros s. apply (extends_alloc _ s). Qed.

(** The copy is popped from, never the original. *)
Lemma extends_eval_kwargs self : respects extends (eval_kwargs self).
Proof.
  intros s. unfold eval_kwargs. rewrite run_bind, getattr_run.
  destruct (attr (heap s) self "kwargs") as [v|]; [|reflexivity].
  rewrite run_bind. unfold copy_dict at 1. rewrite run_bind.
  pose proof (reader_read_dict v s) as Hr.
  destruct (read_dict v s) as [[d|e] s1]; cbn in Hr; subst s1; [|reflexivity].
  rewrite run_bind. cbn [alloc]. unfold mret at 1, M_ret at 1.
  unfold dict_pop, read_dict, store. rewrite !run_bind. cbn [heap].
  rewrite lookup_insert_eq. cbn. rewrite !run_bind. cbn [heap].
  rewrite lookup_insert_eq. cbn. rewrite lookup_insert_eq. cbn.
  unfold extends. cbn. split_and!; [done | lia | | done].
  intros l Hl. rewrite !lookup_insert_ne by lia. done.
Qed.

(** The attribute is set on the loader that was just built. *)
Lemma extends_construct_setattr c args kw n x :
  respects extends
    (loader ← construct_external c args kw;
     setattr loader n x;; mret loader).
Proof.
  intros s. unfold construct_external. rewrite !run_bind. cbn [alloc].
  unfold mret at 1, M_ret at 1. rewrite run_bind.
  erewrite setattr_ok_run by (cbn; apply lookup_insert_eq).
  unfold extends. cbn. split_and!; [done | lia | | done].
  intros l Hl. rewrite !lookup_insert_ne by lia. done.
Qed.

#[export] Hint Resolve extends_alloc extends_filterwarnings
  extends_construct_external extends_eval_kwargs extends_construct_setattr
  : respects.

Lemma extends_full_dataloader self kw : respects extends (full_dataloader self kw).
Proof. unfold full_dataloader. respects_auto. Qed.

#[export] Hint Resolve extends_full_dataloader : respects.

Lemma extends_own_method c a m self :
  own_method c a = Some m -> respects extends (m self).
Proof.
  intros H. destruct c, a; cbn in H; simplify_eq;
    unfold LightningDataset.train_dataloader, LightningDataset.val_dataloader,
      LightningDataset.test_dataloader, LightningDataset.dataloader,
      LightningNodeData.train_dataloader, LightningNodeData.val_dataloader,
      LightningNodeData.test_dataloader, LightningNodeData.predict_dataloader,
      LightningNodeData.split_dataloader, LightningNodeData.dataloader,
      LightningLinkData.train_dataloader, LightningLinkData.val_dataloader,
      LightningLinkData.test_dataloader,
      LightningLinkData.split_dataloader, LightningLinkData.dataloader;
    respects_auto.
Qed.

(** C8.  No split accessor defined by the module mutates the module's
    state: every attribute of [self] (the datasets, the input nodes, edges,
    labels, times and ids, the graph, the loader name, [self.kwargs]) and
    every object that existed before the call (among them the dictionary
    [self.kwargs] refers to) is the same afterwards, and no warning is
    emitted.  The accessors only allocate: the copy of [self.kwargs] they
    pop ['sampler'] and ['batch_sampler'] from, and the loader. *)
Theorem accessors_do_not_mutate c a m l s :
  own_method c a = Some m ->
  (l < next_loc s)%nat ->
  (∀ n, attr (heap (m (VRef l) s).2) (VRef l) n = attr (heap s) (VRef l) n)
  ∧ (∀ k, (k < next_loc s)%nat -> heap (m (VRef l) s).2 !! k = heap s !! k)
  ∧ warnings (m (VRef l) s).2 = warnings s
  ∧ globals (m (VRef l) s).2 = globals s.
Proof.
  intros H Hl.
  destruct (extends_own_method c a m (VRef l) H s) as (Hg & _ & Hh & Hw).
  split_and!; try done.
  intros n. unfold attr, attrs_of. by rewrite Hh.
Qed.

Lemma accessors_do_not_mutate_witness :
  (∀ n, attr (heap (LightningNodeData.val_dataloader (VRef 1) built_node).2)
          (VRef 1) n = attr (heap built_node) (VRef 1) n)
  ∧ (∀ k, (k < next_loc built_node)%nat ->
          heap (LightningNodeData.val_dataloader (VRef 1) built_node).2 !! k
          = heap built_node !! k)
  ∧ warnings (LightningNodeData.val_dataloader (VRef 1) built_node).2
    = warnings built_node
  ∧ globals (LightningNodeData.val_dataloader (VRef 1) built_node).2
    = globals built_node.
Proof.
  apply (accessors_do_not_mutate ClsLightningNodeData ValDataloader
           LightningNodeData.val_dataloader 1 built_node).
  - reflexivity.
  - vm_compute. lia.
Defined.

(** ** One loader per call *)







Global Instance no_new_loader_preorder : PreOrder no_new_loader.
Proof.
  split.
  - intros s l o H1 H2. eauto.
  - intros s1 s2 s3 H12 H23 l o H1 H2.
    destruct (H23 l o H1 H2) as (o' & H3 & H4). eauto.
Qed.

Lemma no_new_loader_store l o :
  is_loader o = false -> respects no_new_loader (store l o).
Proof.
  intros Ho s l' o' H1 H2. cbn in H1.
  destruct (decide (l = l')) as [->|Hne].
  - rewrite lookup_insert_eq in H1. simplify_eq. congruence.
  - rewrite lookup_insert_ne in H1 by done. eauto.
Qed.

Lemma no_new_loader_alloc o :
  is_loader o = false -> respects no_new_loader (alloc o).
Proof. intros Ho s. apply (no_new_loader_store (next_loc s) o Ho s). Qed.

Lemma no_new_loader_warn w : respects no_new_loader (warn w).
Proof. intros s l o H1 H2. eauto. Qed.

Lemma no_new_loader_setattr v n x : respects no_new_loader (setattr v n x).
Proof.
  intros s. unfold setattr. destruct v; try reflexivity.
  destruct (heap s !! l) as [[]|] eqn:E; try reflexivity.
  - by apply no_new_loader_store.
  - intros l' o' H1 H2. cbn in H1.
    destruct (decide (l = l')) as [->|Hne].
    + rewrite lookup_insert_eq in H1. simplify_eq. eauto.
    + rewrite lookup_insert_ne in H1 by done. eauto.
Qed.

Lemma no_new_loader_dict_set v k x : respects no_new_loader (dict_set v k x).
Proof.
  unfold dict_set. apply respects_bind; [tc_solve | by apply respects_reader; [tc_solve | reader_auto] |].
  intros d. destruct v; try solve [apply respects_reader; [tc_solve | reader_auto]].
  by apply no_new_loader_store.
Qed.

Lemma no_new_loader_dict_pop v k : respects no_new_loader (dict_pop v k).
Proof.
  unfold dict_pop. apply respects_bind; [tc_solve | by apply respects_reader; [tc_solve | reader_auto] |].
  intros d. destruct v; try solve [apply respects_reader; [tc_solve | reader_auto]].
  by apply no_new_loader_store.
Qed.

Lemma no_new_loader_sampler args kw :
  respects no_new_loader (construct_external "NeighborSampler" args kw).
Proof.
  unfold construct_external.
  apply respects_bind; [tc_solve | by apply no_new_loader_alloc |].
  intros l. apply respects_reader; [tc_solve | reader_auto].
Qed.

Lemma no_new_loader_new c : respects no_new_loader (new c).
Proof.
  unfold new.
  apply respects_bind; [tc_solve | by apply no_new_loader_alloc |].
  intros l. apply respects_reader; [tc_solve | reader_auto].
Qed.

Lemma no_new_loader_alloc_dict d : respects no_new_loader (alloc (ODict d)).
Proof. by apply no_new_loader_alloc. Qed.

#[export] Hint Resolve no_new_loader_warn no_new_loader_setattr
  no_new_loader_dict_set no_new_loader_dict_pop no_new_loader_sampler
  no_new_loader_new no_new_loader_alloc_dict : respects.









(** ** The coercions of the full-graph loader *)

Lemma base_init_type_error s l c attrs hv ht (kwargs : gmap string pyval) :
  no_pytorch_lightning (globals s) = false ->
  heap s !! l = Some (OModule c attrs) ->
  final_kwargs kwargs = None ->
  (LightningDataModule.__init__ (VRef l) hv ht kwargs s).1 = Raise TypeError.
Proof.
  intros Hpl Hl Hd. unfold LightningDataModule.__init__.
  rewrite run_bind. cbn [ask]. rewrite Hpl.
  rewrite (base_init_flags_run _ _ _ _ _ _ _ Hl).
  set (s1 := State _ _ _ _ _).
  assert (Hl1 : heap s1 !! l = Some (OModule c (split_flags hv ht attrs)))
    by apply lookup_insert_eq.
  rewrite run_bind.
  assert (Hsh : ∃ s2,
    match kwargs !! "shuffle" with
    | Some given =>
        cls ← class_of (VRef l);
        warn (WarnShuffleIgnored cls given);;
        mret (delete "shuffle" kwargs)
    | None => mret kwargs
    end s1 = (Ok (delete "shuffle" kwargs), s2)).
  { destruct (kwargs !! "shuffle") eqn:E.
    - rewrite run_bind, (class_of_run _ _ _ _ Hl1). by eexists.
    - rewrite delete_id by done. by eexists. }
  destruct Hsh as [s2 ->]. unfold final_kwargs in Hd. cbv zeta in Hd.
  set (k2 := if has_key "pin_memory" (delete "shuffle" kwargs) then _ else _) in *.
  rewrite run_bind.
  destruct (has_key "persistent_workers" k2); [done|].
  rewrite run_bind. unfold lift.
  destruct (py_gt _ _) as [b|e] eqn:E; [done|].
  cbn. f_equal. unfold py_gt in E. repeat case_match; by simplify_eq.
Qed.

Lemma base_init_ok_inv s l c attrs hv ht (kwargs : gmap string pyval) u s' :
  heap s !! l = Some (OModule c attrs) ->
  l ≠ next_loc s ->
  LightningDataModule.__init__ (VRef l) hv ht kwargs s = (Ok u, s') ->
  ∃ d, final_kwargs kwargs = Some d
       ∧ s' = State (globals s)
                (<[l := OModule c (<["kwargs" := VRef (next_loc s)]>
                                     (split_flags hv ht attrs))]>
                   (<[next_loc s := ODict d]> (heap s)))
                (S (next_loc s)) (warnings s ++ shuffle_warning c kwargs)
                (warning_filters s).
Proof.
  intros Hl Hne H.
  destruct (no_pytorch_lightning (globals s)) eqn:Hpl.
  { by rewrite base_init_no_lightning in H. }
  destruct (final_kwargs kwargs) as [d|] eqn:Hd.
  - exists d. split; [done|].
    rewrite (base_init_run _ _ _ _ _ _ _ _ Hpl Hl Hne Hd) in H. by simplify_eq.
  - pose proof (base_init_type_error _ _ _ _ hv ht _ Hpl Hl Hd) as E.
    by rewrite H in E.
Qed.


Lemma eq_str_true v t : eq_str v t = true -> v = VStr t.
Proof.
  destruct v; try discriminate. cbn. intros H. apply String.eqb_eq in H. by subst.
Qed.

Lemma reset_for_full_run s l c attrs loader given target w :
  heap s !! l = Some (OModule c attrs) ->
  reset_for_full (VRef l) loader given target w s =
  (Ok (if eq_str loader "full" && negb (eq_int given target)
       then VInt target else given),
   State (globals s) (heap s) (next_loc s)
     (warnings s ++ if eq_str loader "full" && negb (eq_int given target)
                    then [w c given] else [])
     (warning_filters s)).
Proof.
  intros Hl. unfold reset_for_full.
  destruct (eq_str loader "full" && negb (eq_int given target)).
  - by rewrite run_bind, (class_of_run _ _ _ _ Hl).
  - cbn. rewrite app_nil_r. by destruct s.
Qed.

Lemma base_init_kwargs_inv hv ht bs nw (kw r : gmap string pyval) s s' :
  base_init_kwargs hv ht bs nw kw s = (Ok r, s') ->
  s' = s
  ∧ r !! "batch_size" = Some bs
  ∧ r !! "num_workers" = Some nw
  ∧ r !! "shuffle" = kw !! "shuffle".
Proof.
  unfold base_init_kwargs, call_kwargs. rewrite run_bind.
  destruct (existsb _ _) eqn:E; [discriminate|].
  unfold mret, M_ret. cbn. intros ?; simplify_eq. split; [done|].
  assert (Hnone : ∀ k, k ∈ base_init_names -> kw !! k = None).
  { intros k Hk. apply eq_None_not_Some. intros Hs.
    assert (Ht : existsb (λ k, bool_decide (is_Some (kw !! k))) base_init_names = true).
    { apply existsb_exists. exists k. split; [by apply list_elem_of_In|].
      by apply bool_decide_eq_true. }
    unfold base_init_names in Ht. cbn in Ht, E. congruence. }
  split_and!.
  - rewrite !lookup_delete_ne by done. rewrite lookup_union_r.
    + done.
    + apply Hnone. unfold base_init_names. set_solver.
  - rewrite !lookup_delete_ne by done. rewrite lookup_union_r.
    + done.
    + apply Hnone. unfold base_init_names. set_solver.
  - rewrite !lookup_delete_ne by done.
    destruct (kw !! "shuffle") as [x|] eqn:Ex.
    + by apply lookup_union_Some_l.
    + by rewrite lookup_union_r.
Qed.

Lemma setattr_ok_frame v n x s u s' :
  setattr v n x s = (Ok u, s') ->
  (∀ k D, heap s !! k = Some (ODict D) -> heap s' !! k = Some (ODict D))
  ∧ warnings s' = warnings s.
Proof.
  unfold setattr, store. destruct v; try discriminate.
  destruct (heap s !! l) as [[]|] eqn:E; try discriminate;
    intros ?; simplify_eq; cbn; (split; [|done]);
    intros k D Hk; (rewrite lookup_insert_ne; [done | congruence]).
Qed.

Lemma drop_sampler_kwargs_run self s :
  attr (heap s) self "neighbor_sampler" = None ->
  drop_sampler_kwargs self s = (Ok tt, s).
Proof.
  intros H. unfold drop_sampler_kwargs, getattr_or_none.
  rewrite run_bind. unfold catch. rewrite getattr_run, H.
  by rewrite decide_True.
Qed.

Lemma reset_pin_memory_run s l c attrs k d loader (kwargs : gmap string pyval) :
  eq_str loader "full" = true ->
  heap s !! l = Some (OModule c attrs) ->
  attrs !! "kwargs" = Some (VRef k) ->
  heap s !! k = Some (ODict d) ->
  reset_pin_memory (VRef l) loader kwargs s =
  (Ok tt,
   State (globals s) (<[k := ODict (<["pin_memory" := VBool false]> d)]> (heap s))
     (next_loc s)
     (warnings s ++ if truthy (heap s) (dict_get kwargs "pin_memory" (VBool false))
                    then [WarnResetPinMemory c] else [])
     (warning_filters s)).
Proof.
  intros Hfull Hl Hk Hd. unfold reset_pin_memory. rewrite Hfull.
  rewrite run_bind. unfold truthy_.
  destruct (truthy _ _).
  - rewrite !run_bind, (class_of_run _ _ _ _ Hl). cbn [warn].
    rewrite run_bind, getattr_run. unfold attr, attrs_of. cbn [heap].
    rewrite Hl. cbn. rewrite Hk. unfold dict_set, read_dict.
    rewrite run_bind. cbn [heap]. by rewrite Hd.
  - rewrite !run_bind. unfold mret at 1, M_ret at 1.
    rewrite run_bind, getattr_run. unfold attr, attrs_of.
    rewrite Hl. cbn. rewrite Hk. unfold dict_set, read_dict.
    rewrite run_bind, Hd. cbn. rewrite app_nil_r. done.
Qed.

Lemma setattr_ok_inv_all v n x s u s' :
  setattr v n x s = (Ok u, s') ->
  attr (heap s') v n = Some x
  ∧ (∀ n', n' ≠ n -> attr (heap s') v n' = attr (heap s) v n')
  ∧ (∀ k D, heap s !! k = Some (ODict D) -> heap s' !! k = Some (ODict D))
  ∧ warnings s' = warnings s.
Proof.
  intros H. destruct (setattr_ok_inv _ _ _ _ _ _ H) as [H1 H2].
  destruct (setattr_ok_frame _ _ _ _ _ _ H) as [H3 H4]. done.
Qed.

(** Splits off a first step that writes an attribute, keeping what it
    leaves untouched. *)
Ltac inv_setattr_all H :=
  let a := fresh "a" in
  let s := fresh "s" in
  let H1 := fresh "Hstep" in
  let Hs := fresh "Hset" in
  let Hf := fresh "Hframe" in
  let Hd := fresh "Hdict" in
  let Hw := fresh "Hwarn" in
  apply bind_ok_inv in H as (a & s & H1 & H);
  apply setattr_ok_inv_all in H1 as (Hs & Hf & Hd & Hw).

(** Transports a fact about an attribute, a dictionary or the warnings
    back through the writes collected by [inv_setattr_all]. *)
Ltac frame_back :=
  repeat match goal with
    | H : ∀ n', n' ≠ _ -> attr (heap ?s) ?v n' = _
      |- attr (heap ?s) ?v _ = _ => rewrite H by done
    | H : ∀ k D, _ -> heap ?s !! k = Some (ODict D)
      |- heap ?s !! _ = Some (ODict _) => apply H
    | H : warnings ?s = _ |- warnings ?s = _ => rewrite H
    end.

(** Closes [x ∉ [a; b; ...]] when [x] differs from every element. *)
Ltac not_in_list :=
  let H := fresh "H" in
  intros H; repeat (apply elem_of_cons in H as [H|H]; [discriminate H|]);
  by apply elem_of_nil in H.

Lemma truthy_no_heap h h' v : (∀ x, v ≠ VRef x) -> truthy h v = truthy h' v.
Proof. destruct v; try done. intros H. by destruct (H l). Qed.

Lemma full_no_sampler_node a :
  eq_str (LightningNodeData.effective_loader a) "full" = true ->
  LightningNodeData.effective_loader a = VStr "full"
  ∧ is_none (LightningNodeData.node_sampler a) = true.
Proof.
  intros H. split; [by apply eq_str_true|].
  unfold LightningNodeData.effective_loader in H.
  by destruct (is_none (LightningNodeData.node_sampler a)).
Qed.

Lemma node_full_kwargs a s v s' :
  construct_node a s = (Ok v, s') ->
  eq_str (LightningNodeData.effective_loader a) "full" = true ->
  full_loader_coerced ClsLightningNodeData (LightningNodeData.batch_size a)
    (LightningNodeData.num_workers a) (LightningNodeData.kwargs a) s v s'.
Proof.
  intros H Hfull. destruct (full_no_sampler_node a Hfull) as [Hld Hns].
  unfold construct_node, new in H.
  rewrite !run_bind in H. cbn [alloc] in H. unfold mret at 1, M_ret at 1 in H.
  set (l := next_loc s) in *.
  set (s1 := State _ _ _ _ _) in H.
  assert (Hl1 : heap s1 !! l = Some (OModule ClsLightningNodeData ∅))
    by apply lookup_insert_eq.
  rewrite run_bind in H.
  destruct (LightningNodeData.__init__ (VRef l) a s1) as [[u|e] s2] eqn:Hinit;
    [|discriminate].
  unfold mret, M_ret in H. simplify_eq.
  unfold LightningNodeData.__init__ in Hinit. rewrite Hld in Hinit.
  cbn [existsb eq_str String.eqb Ascii.eqb Bool.eqb orb negb] in Hinit.
  inv_reader Hinit. inv_reader Hinit. inv_reader Hinit. inv_reader Hinit.
  rewrite run_bind, (reset_for_full_run _ _ _ _ _ _ _ _ Hl1) in Hinit.
  rewrite run_bind in Hinit.
  erewrite reset_for_full_run in Hinit by exact Hl1.
  cbn [eq_str String.eqb Ascii.eqb Bool.eqb andb] in Hinit.
  cbn [heap globals next_loc warnings warning_filters] in Hinit.
  set (bs := if negb (eq_int (LightningNodeData.batch_size a) 1) then _ else _) in *.
  set (nw := if negb (eq_int (LightningNodeData.num_workers a) 0) then _ else _) in *.
  assert (Hbs : eq_int bs 1 = true).
  { subst bs. by destruct (eq_int (LightningNodeData.batch_size a) 1) eqn:E. }
  assert (Hnw : eq_int nw 0 = true).
  { subst nw. by destruct (eq_int (LightningNodeData.num_workers a) 0) eqn:E. }
  inv_bind Hinit. apply base_init_kwargs_inv in Hstep as (-> & Hr1 & Hr2 & Hr3).
  inv_bind Hinit.
  apply base_init_ok_inv with (c := ClsLightningNodeData) (attrs := ∅) in Hstep;
    [|exact Hl1 | cbn; lia].
  destruct Hstep as (d & Hd & ->).
  cbn [heap globals next_loc warnings warning_filters] in Hinit.
  destruct (final_kwargs_lookup _ _ Hd) as (_ & _ & _ & Hkeep).
  set (k := S l) in *.
  rewrite run_bind in Hinit.
  erewrite reset_pin_memory_run in Hinit; cycle 1.
  { reflexivity. }
  { cbn. apply lookup_insert_eq. }
  { apply lookup_insert_eq. }
  { cbn. rewrite lookup_insert_ne by (subst k; lia). apply lookup_insert_eq. }
  cbn [heap globals next_loc warnings warning_filters] in Hinit.
  set (pin := truthy _ _) in Hinit.
  set (s4 := State _ _ _ _ _) in Hinit.
  assert (Hk4 : heap s4 !! k = Some (ODict (<["pin_memory" := VBool false]> d)))
    by apply lookup_insert_eq.
  assert (Ha4 : ∀ n, attr (heap s4) (VRef l) n
                     = (<["kwargs" := VRef k]>
                          (split_flags (negb (is_none a1)) (negb (is_none a2)) ∅
                             : gmap string pyval)) !! n).
  { intros n. unfold attr, attrs_of. subst s4. cbn [heap].
    rewrite lookup_insert_ne by (subst k; lia). by rewrite lookup_insert_eq. }
  assert (Hw4 : warnings s4
                = (warnings s
                   ++ full_warnings ClsLightningNodeData (LightningNodeData.batch_size a)
                        (LightningNodeData.num_workers a) (LightningNodeData.kwargs a)
                        pin)%list).
  { subst s4. cbn [warnings]. unfold full_warnings, shuffle_warning.
    rewrite Hr3. rewrite <- !app_assoc.
    by destruct (eq_int (LightningNodeData.batch_size a) 1),
                (eq_int (LightningNodeData.num_workers a) 0). }
  clearbody s4.
  do 2 inv_setattr_all Hinit.
  rewrite Hns in Hinit. cbn [negb] in Hinit.
  inv_bind Hinit. unfold mret, M_ret in Hstep. simplify_eq.
  inv_bind Hinit. rewrite drop_sampler_kwargs_run in Hstep; cycle 1.
  { frame_back. rewrite Ha4. rewrite lookup_insert_ne by done.
    unfold split_flags. by repeat case_match; simplify_map_eq. }
  simplify_eq.
  do 11 inv_setattr_all Hinit. apply setattr_ok_inv_all in Hinit as (? & ? & ? & ?).
  exists k, (<["pin_memory" := VBool false]> d), pin. split_and!.
  - frame_back. rewrite Ha4. apply lookup_insert_eq.
  - frame_back. exact Hk4.
  - exists bs. split; [|done]. rewrite lookup_insert_ne by done.
    rewrite Hkeep by not_in_list. done.
  - exists nw. split; [|done]. rewrite lookup_insert_ne by done.
    rewrite Hkeep by not_in_list. done.
  - apply lookup_insert_eq.
  - by frame_back.
  - intros h Hh. subst pin. by apply truthy_no_heap.
Qed.

Lemma full_no_sampler_link a :
  eq_str (LightningLinkData.effective_loader a) "full" = true ->
  LightningLinkData.effective_loader a = VStr "full"
  ∧ is_none (LightningLinkData.link_sampler a) = true.
Proof.
  intros H. split; [by apply eq_str_true|].
  unfold LightningLinkData.effective_loader in H.
  by destruct (is_none (LightningLinkData.link_sampler a)).
Qed.

Lemma link_full_kwargs a s v s' :
  construct_link a s = (Ok v, s') ->
  eq_str (LightningLinkData.effective_loader a) "full" = true ->
  full_loader_coerced ClsLightningLinkData (LightningLinkData.batch_size a)
    (LightningLinkData.num_workers a) (LightningLinkData.kwargs a) s v s'.
Proof.
  intros H Hfull. destruct (full_no_sampler_link a Hfull) as [Hld Hns].
  unfold construct_link, new in H.
  rewrite !run_bind in H. cbn [alloc] in H. unfold mret at 1, M_ret at 1 in H.
  set (l := next_loc s) in *.
  set (s1 := State _ _ _ _ _) in H.
  assert (Hl1 : heap s1 !! l = Some (OModule ClsLightningLinkData ∅))
    by apply lookup_insert_eq.
  rewrite run_bind in H.
  destruct (LightningLinkData.__init__ (VRef l) a s1) as [[u|e] s2] eqn:Hinit;
    [|discriminate].
  unfold mret, M_ret in H. simplify_eq.
  unfold LightningLinkData.__init__ in Hinit. rewrite Hld in Hinit.
  cbn [existsb eq_str String.eqb Ascii.eqb Bool.eqb orb negb] in Hinit.
  destruct (is_none (LightningLinkData.input_train_edges a)); [discriminate|].
  rewrite run_bind, (reset_for_full_run _ _ _ _ _ _ _ _ Hl1) in Hinit.
  rewrite run_bind in Hinit.
  erewrite reset_for_full_run in Hinit by exact Hl1.
  cbn [eq_str String.eqb Ascii.eqb Bool.eqb andb] in Hinit.
  cbn [heap globals next_loc warnings warning_filters] in Hinit.
  set (bs := if negb (eq_int (LightningLinkData.batch_size a) 1) then _ else _) in *.
  set (nw := if negb (eq_int (LightningLinkData.num_workers a) 0) then _ else _) in *.
  assert (Hbs : eq_int bs 1 = true).
  { subst bs. by destruct (eq_int (LightningLinkData.batch_size a) 1) eqn:E. }
  assert (Hnw : eq_int nw 0 = true).
  { subst nw. by destruct (eq_int (LightningLinkData.num_workers a) 0) eqn:E. }
  inv_bind Hinit. apply base_init_kwargs_inv in Hstep as (-> & Hr1 & Hr2 & Hr3).
  inv_bind Hinit.
  apply base_init_ok_inv with (c := ClsLightningLinkData) (attrs := ∅) in Hstep;
    [|exact Hl1 | cbn; lia].
  destruct Hstep as (d & Hd & ->).
  cbn [heap globals next_loc warnings warning_filters] in Hinit.
  destruct (final_kwargs_lookup _ _ Hd) as (_ & _ & _ & Hkeep).
  set (k := S l) in *.
  rewrite run_bind in Hinit.
  erewrite reset_pin_memory_run in Hinit; cycle 1.
  { reflexivity. }
  { cbn. apply lookup_insert_eq. }
  { apply lookup_insert_eq. }
  { cbn. rewrite lookup_insert_ne by (subst k; lia). apply lookup_insert_eq. }
  cbn [heap globals next_loc warnings warning_filters] in Hinit.
  set (pin := truthy _ _) in Hinit.
  set (s4 := State _ _ _ _ _) in Hinit.
  assert (Hk4 : heap s4 !! k = Some (ODict (<["pin_memory" := VBool false]> d)))
    by apply lookup_insert_eq.
  assert (Ha4 : ∀ n, attr (heap s4) (VRef l) n
                     = (<["kwargs" := VRef k]>
                          (split_flags (negb (is_none (LightningLinkData.input_val_edges a)))
                             (negb (is_none (LightningLinkData.input_test_edges a))) ∅
                             : gmap string pyval)) !! n).
  { intros n. unfold attr, attrs_of. subst s4. cbn [heap].
    rewrite lookup_insert_ne by (subst k; lia). by rewrite lookup_insert_eq. }
  assert (Hw4 : warnings s4
                = (warnings s
                   ++ full_warnings ClsLightningLinkData (LightningLinkData.batch_size a)
                        (LightningLinkData.num_workers a) (LightningLinkData.kwargs a)
                        pin)%list).
  { subst s4. cbn [warnings]. unfold full_warnings, shuffle_warning.
    rewrite Hr3. rewrite <- !app_assoc.
    by destruct (eq_int (LightningLinkData.batch_size a) 1),
                (eq_int (LightningLinkData.num_workers a) 0). }
  clearbody s4.
  do 2 inv_setattr_all Hinit.
  cbn [existsb eq_str String.eqb Ascii.eqb Bool.eqb orb] in Hinit.
  rewrite Hns in Hinit. cbn [negb] in Hinit.
  inv_bind Hinit. unfold mret, M_ret in Hstep. simplify_eq.
  inv_bind Hinit. rewrite drop_sampler_kwargs_run in Hstep; cycle 1.
  { frame_back. rewrite Ha4. rewrite lookup_insert_ne by done.
    unfold split_flags. by repeat case_match; simplify_map_eq. }
  simplify_eq.
  do 11 inv_setattr_all Hinit. apply setattr_ok_inv_all in Hinit as (? & ? & ? & ?).
  exists k, (<["pin_memory" := VBool false]> d), pin. split_and!.
  - frame_back. rewrite Ha4. apply lookup_insert_eq.
  - frame_back. exact Hk4.
  - exists bs. split; [|done]. rewrite lookup_insert_ne by done.
    rewrite Hkeep by not_in_list. done.
  - exists nw. split; [|done]. rewrite lookup_insert_ne by done.
    rewrite Hkeep by not_in_list. done.
  - apply lookup_insert_eq.
  - by frame_back.
  - intros h Hh. subst pin. by apply truthy_no_heap.
Qed.

(** C10.  A [LightningNodeData] or [LightningLinkData] built with
    [loader='full'] and no custom sampler has, whatever values were
    passed, [batch_size] equal to 1, [num_workers] equal to 0 and
    [pin_memory] equal to [False] in [self.kwargs]; construction emits one
    warning for each of the three values it re-sets ([batch_size] other
    than 1, [num_workers] other than 0, a true [pin_memory]), besides the
    base initialiser's warning about ['shuffle']. *)
Theorem full_loader_coerces_kwargs :
  (∀ a s v s',
     LightningNodeData.loader a = VStr "full" ->
     LightningNodeData.node_sampler a = VNone ->
     construct_node a s = (Ok v, s') ->
     full_loader_coerced ClsLightningNodeData (LightningNodeData.batch_size a)
       (LightningNodeData.num_workers a) (LightningNodeData.kwargs a) s v s')
  ∧ (∀ a s v s',
       LightningLinkData.loader a = VStr "full" ->
       LightningLinkData.link_sampler a = VNone ->
       construct_link a s = (Ok v, s') ->
       full_loader_coerced ClsLightningLinkData (LightningLinkData.batch_size a)
         (LightningLinkData.num_workers a) (LightningLinkData.kwargs a) s v s').
Proof.
  split; intros a s v s' Hld Hns H.
  - apply node_full_kwargs; [done|].
    unfold LightningNodeData.effective_loader. by rewrite Hns, Hld.
  - apply link_full_kwargs; [done|].
    unfold LightningLinkData.effective_loader. by rewrite Hns, Hld.
Qed.

Lemma full_loader_coerces_kwargs_witness :
  full_loader_coerced ClsLightningNodeData (VInt 32) (VInt 4)
    {["pin_memory" := VBool true]} state0 (VRef 1)
    (construct_node full_args state0).2
  ∧ full_loader_coerced ClsLightningLinkData (VInt 8) (VInt 0) ∅ state0 (VRef 1)
      (construct_link full_link_args state0).2.
Proof.
  split.
  - apply (proj1 full_loader_coerces_kwargs full_args state0 (VRef 1)
             (construct_node full_args state0).2).
    + reflexivity.
    + reflexivity.
    + vm_compute. reflexivity.
  - apply (proj2 full_loader_coerces_kwargs full_link_args state0 (VRef 1)
             (construct_link full_link_args state0).2).
    + reflexivity.
    + reflexivity.
    + vm_compute. reflexivity.
Defined.

(** ** Accessor resolution after construction *)

Global Instance keeps_attr_preorder l n : PreOrder (keeps_attr l n).
Proof.
  split.
  - by intros s Hl.
  - intros s1 s2 s3 H12 H23 Hl.
    destruct (H12 Hl) as (Hl2 & Ha & Hc).
    destruct (H23 Hl2) as (Hl3 & Ha' & Hc').
    split_and!; [done | congruence | congruence].
Qed.

Lemma keeps_attr_alloc l n o : respects (keeps_attr l n) (alloc o).
Proof.
  intros s Hl. cbn. unfold attr, attrs_of, class_at.
  rewrite lookup_insert_ne by lia. split_and!; [lia | done | done].
Qed.

Lemma keeps_attr_warn l n w : respects (keeps_attr l n) (warn w).
Proof. by intros s Hl. Qed.

Lemma keeps_attr_setattr l n v n' x :
  n' ≠ n -> respects (keeps_attr l n) (setattr v n' x).
Proof.
  intros Hn s Hl. unfold setattr, store. destruct v; try done.
  destruct (heap s !! l0) as [[]|] eqn:E; try done; cbn;
    unfold attr, attrs_of, class_at;
    (destruct (decide (l0 = l)) as [->|Hne];
     [rewrite lookup_insert_eq, E; cbn; by rewrite lookup_insert_ne
     |by rewrite lookup_insert_ne]).
Qed.

Lemma keeps_attr_dict_write l n v (f : gmap string pyval -> gmap string pyval) :
  respects (keeps_attr l n)
    (d ← read_dict v;
     match v with
     | VRef l' => store l' (ODict (f d))
     | _ => raise TypeError
     end).
Proof.
  intros s Hl. unfold read_dict. rewrite run_bind. destruct v; try done.
  destruct (heap s !! l0) as [[]|] eqn:E; try done. cbn.
  unfold attr, attrs_of, class_at.
  destruct (decide (l0 = l)) as [->|Hne].
  - by rewrite lookup_insert_eq, E.
  - by rewrite lookup_insert_ne.
Qed.

Lemma keeps_attr_dict_set l n v k x : respects (keeps_attr l n) (dict_set v k x).
Proof. apply (keeps_attr_dict_write l n v (λ d, <[k := x]> d)). Qed.

Lemma keeps_attr_dict_pop l n v k : respects (keeps_attr l n) (dict_pop v k).
Proof. apply (keeps_attr_dict_write l n v (λ d, delete k d)). Qed.

Lemma keeps_attr_construct_external l n c args kw :
  respects (keeps_attr l n) (construct_external c args kw).
Proof.
  unfold construct_external.
  apply respects_bind; [tc_solve | apply keeps_attr_alloc |].
  intros ?. apply respects_reader; [tc_solve | reader_auto].
Qed.

#[export] Hint Resolve keeps_attr_alloc keeps_attr_warn keeps_attr_setattr
  keeps_attr_dict_set keeps_attr_dict_pop keeps_attr_construct_external
  : respects.
#[export] Hint Extern 1 (_ ≠ _) => done : respects.














